(** * Linkly URL shortener: a shallow embedding of [app.py]

    The Flask handlers of [app.py] are rendered as pure functions over an
    explicit store (the MongoDB collection [urls] and the [qrcodes/]
    directory).  Python values that reach the handlers from a form or a
    JSON body are kept dynamically typed ([pyval]); unhandled Python
    exceptions are results of their own ([Raise]), which Flask turns into
    a 500 response. *)

From Stdlib Require Import ZArith Ascii String.
From stdpp Require Import base option list gmap strings.

Local Open Scope string_scope.
Local Open Scope Z_scope.

(** ** Python values, truthiness, exceptions *)

Module Py.

(** The scalar values a form field or a JSON member can carry.  JSON
    arrays, objects and non-integral numbers are outside the model, and
    strings are sequences of bytes: the [str] methods below act on the
    ASCII range, as Python does on ASCII text. *)
Inductive pyval :=
| VNone
| VBool (b : bool)
| VInt (z : Z)
| VStr (s : string).

#[export] Instance pyval_eq_dec : EqDecision pyval.
Proof. solve_decision. Defined.

(** [bool(v)] *)
Definition truthy (v : pyval) : bool :=
  match v with
  | VNone => false
  | VBool b => b
  | VInt z => negb (z =? 0)
  | VStr s => negb (String.eqb s "")
  end.

(** [v or None] *)
Definition or_none (v : pyval) : pyval := if truthy v then v else VNone.

(** [a or b] *)
Definition py_or (a b : pyval) : pyval := if truthy a then a else b.

(** [a == b]: [bool] is a subclass of [int], so [True == 1]. *)
Definition py_eq (a b : pyval) : bool :=
  match a, b with
  | VNone, VNone => true
  | VBool x, VBool y => Bool.eqb x y
  | VBool x, VInt y => (if x then 1 else 0) =? y
  | VInt x, VBool y => x =? (if y then 1 else 0)
  | VInt x, VInt y => x =? y
  | VStr x, VStr y => String.eqb x y
  | _, _ => false
  end.

Inductive exn :=
| ValueError | TypeError | AttributeError
| OverflowError      (* an [int] the BSON encoder cannot write *)
| OSError.           (* the QR image could not be made or saved *)

Inductive result (A : Type) :=
| Ok (a : A)
| Raise (e : exn).
Arguments Ok {A} a.
Arguments Raise {A} e.

Definition bind {A B} (r : result A) (k : A -> result B) : result B :=
  match r with
  | Ok a => k a
  | Raise e => Raise e
  end.

#[export] Instance result_bind : MBind result := fun A B k r => bind r k.
#[export] Instance result_ret : MRet result := fun A a => Ok a.
#[export] Instance result_fmap : FMap result :=
  fun A B f r => bind r (fun a => Ok (f a)).

Definition raises {A} (r : result A) : Prop := exists e, r = Raise e.

(** *** Characters and [str] methods (ASCII) *)

Definition code (c : ascii) : Z := Z.of_N (N_of_ascii c).

(** [str.isspace] on one ASCII character; also the class [\s] of [re]. *)
Definition is_space (c : ascii) : bool :=
  let n := code c in
  ((9 <=? n) && (n <=? 13)) || ((28 <=? n) && (n <=? 32)).

Definition is_digit (c : ascii) : bool :=
  let n := code c in (48 <=? n) && (n <=? 57).

Definition digit_val (c : ascii) : Z := code c - 48.

Definition chars (s : string) : list ascii := list_ascii_of_string s.
Definition str (l : list ascii) : string := string_of_list_ascii l.

Fixpoint lstrip (l : list ascii) : list ascii :=
  match l with
  | c :: r => if is_space c then lstrip r else l
  | [] => []
  end.

Definition strip_chars (l : list ascii) : list ascii :=
  rev (lstrip (rev (lstrip l))).

(** [s.strip()] *)
Definition strip (s : string) : string := str (strip_chars (chars s)).

Definition upper_char (c : ascii) : ascii :=
  let n := code c in
  if (97 <=? n) && (n <=? 122) then ascii_of_N (Z.to_N (n - 32)) else c.

(** [s.upper()] *)
Definition upper (s : string) : string := str (map upper_char (chars s)).

(** [s.split(sep)] for a one-character separator: the pieces between the
    separators, never an empty list. *)
Fixpoint split_chars (sep : ascii) (l : list ascii) : list (list ascii) :=
  match l with
  | [] => [[]]
  | c :: r =>
      if Ascii.eqb c sep then [] :: split_chars sep r
      else match split_chars sep r with
           | p :: ps => (c :: p) :: ps
           | [] => [[c]]
           end
  end.

Definition split (sep : ascii) (s : string) : list string :=
  map str (split_chars sep (chars s)).

(** [s.split(sep, 1)] when [sep in s]: the text before the first
    separator and the text after it; [None] when [sep not in s]. *)
Fixpoint split_once_chars (sep : ascii) (l : list ascii)
  : option (list ascii * list ascii) :=
  match l with
  | [] => None
  | c :: r =>
      if Ascii.eqb c sep then Some ([], r)
      else match split_once_chars sep r with
           | Some (a, b) => Some (c :: a, b)
           | None => None
           end
  end.

Definition split_once (sep : ascii) (s : string) : option (string * string) :=
  match split_once_chars sep (chars s) with
  | Some (a, b) => Some (str a, str b)
  | None => None
  end.

(** *** [int(...)] *)

(** Every character is in the ASCII range. *)
Definition is_ascii (s : string) : bool :=
  forallb (fun c => code c <? 128) (chars s).

(** A value whose text, if it is a string, is ASCII. *)
Definition ascii_val (v : pyval) : bool :=
  match v with
  | VStr s => is_ascii s
  | _ => true
  end.

(** The blanks [int] skips around the digits of an ASCII string: the
    whitespace of C, which leaves out the separators 28 to 31 that
    [str.strip] removes. *)
Definition is_c_space (c : ascii) : bool :=
  let n := code c in ((9 <=? n) && (n <=? 13)) || (n =? 32).

Fixpoint lstrip_c (l : list ascii) : list ascii :=
  match l with
  | c :: r => if is_c_space c then lstrip_c r else l
  | [] => []
  end.

Definition int_strip (l : list ascii) : list ascii :=
  rev (lstrip_c (rev (lstrip_c l))).

(** Decimal digits with single underscores between them, as [int] accepts
    them in a string for base 10. *)
Fixpoint int_digits (acc : Z) (prev_digit : bool) (l : list ascii) : option Z :=
  match l with
  | [] => if prev_digit then Some acc else None
  | c :: r =>
      if is_digit c then int_digits (10 * acc + digit_val c) true r
      else if Ascii.eqb c "_"%char && prev_digit then
        match r with
        | d :: _ => if is_digit d then int_digits acc false r else None
        | [] => None
        end
      else None
  end.

(** [sys.get_int_max_str_digits()], at its default. *)
Definition max_str_digits : nat := 4300.

(** A text with more digits than the limit is refused before it is
    converted. *)
Definition int_of_digits (l : list ascii) : option Z :=
  if (max_str_digits <? length (filter (fun c => is_digit c = true) l))%nat
  then None
  else int_digits 0 false l.

Definition int_of_chars (l : list ascii) : option Z :=
  match int_strip l with
  | c :: r =>
      if Ascii.eqb c "-"%char then Z.opp <$> int_of_digits r
      else if Ascii.eqb c "+"%char then int_of_digits r
      else int_of_digits (c :: r)
  | [] => None
  end.

(** [int(v)] *)
Definition py_int (v : pyval) : result Z :=
  match v with
  | VNone => Raise TypeError
  | VBool b => Ok (if b then 1 else 0)
  | VInt z => Ok z
  | VStr s => match int_of_chars (chars s) with
              | Some z => Ok z
              | None => Raise ValueError
              end
  end.

End Py.
Export Py.


(** ** [datetime]: naive timestamps and [strptime] *)

Module Datetime.

Record datetime := mk_datetime {
  year : Z; month : Z; day : Z;
  hour : Z; minute : Z; second : Z; microsecond : Z
}.

Definition fields (d : datetime) : list Z :=
  [year d; month d; day d; hour d; minute d; second d; microsecond d].

Fixpoint lex_ltb (a b : list Z) : bool :=
  match a, b with
  | x :: a', y :: b' => (x <? y) || ((x =? y) && lex_ltb a' b')
  | [], _ :: _ => true
  | _, [] => false
  end.

(** [a < b] on naive datetimes: field by field, most significant first. *)
Definition dt_ltb (a b : datetime) : bool := lex_ltb (fields a) (fields b).

(** [a > b] *)
Definition dt_gtb (a b : datetime) : bool := dt_ltb b a.

Definition is_leap (y : Z) : bool :=
  ((y mod 4 =? 0) && negb (y mod 100 =? 0)) || (y mod 400 =? 0).

Definition days_in_month (y m : Z) : Z :=
  if m =? 2 then (if is_leap y then 29 else 28)
  else if (m =? 4) || (m =? 6) || (m =? 9) || (m =? 11) then 30
  else 31.

(** The constructor [datetime(y, m, d, H, M, S)] raises [ValueError]
    outside these ranges. *)
Definition valid_datetime (d : datetime) : bool :=
  (1 <=? year d) && (year d <=? 9999)
  && (1 <=? month d) && (month d <=? 12)
  && (1 <=? day d) && (day d <=? days_in_month (year d) (month d))
  && (0 <=? hour d) && (hour d <=? 23)
  && (0 <=? minute d) && (minute d <=? 59)
  && (0 <=? second d) && (second d <=? 59)
  && (0 <=? microsecond d) && (microsecond d <=? 999999).

(** *** The regular expression of ["%Y-%m-%d %H:%M:%S"]

    Each directive is an ordered alternation; every directive is followed
    by a character no digit matches (or by the end of the pattern), so the
    first alternative that matches is the only one that can. *)

Definition between (lo hi : Z) (c : ascii) : bool :=
  (lo <=? code c) && (code c <=? hi).

Definition two (a b : ascii) : Z := 10 * digit_val a + digit_val b.

(** [%Y]: [\d\d\d\d] *)
Definition re_Y (l : list ascii) : option (Z * list ascii) :=
  match l with
  | a :: b :: c :: d :: r =>
      if is_digit a && is_digit b && is_digit c && is_digit d
      then Some (1000 * digit_val a + 100 * digit_val b + two c d, r)
      else None
  | _ => None
  end.

(** A directive with two-character alternatives [ok2] tried before the
    one-character alternative [ok1]. *)
Definition re_alt (ok2 : ascii -> ascii -> bool) (ok1 : ascii -> bool)
    (l : list ascii) : option (Z * list ascii) :=
  match l with
  | a :: b :: r =>
      if ok2 a b then Some (two a b, r)
      else if ok1 a then Some (digit_val a, b :: r)
      else None
  | [a] => if ok1 a then Some (digit_val a, []) else None
  | [] => None
  end.

(** [%m]: [1[0-2]|0[1-9]|[1-9]] *)
Definition re_m : list ascii -> option (Z * list ascii) :=
  re_alt (fun a b => (Ascii.eqb a "1" && between 48 50 b)
                     || (Ascii.eqb a "0" && between 49 57 b))
         (between 49 57).

(** [%d]: [3[01]|[12]\d|0[1-9]|[1-9]| [1-9]]; the last alternative, a
    space and a digit, starts with a character the one before it rejects. *)
Definition re_d (l : list ascii) : option (Z * list ascii) :=
  match l with
  | a :: b :: r =>
      if Ascii.eqb a " " && between 49 57 b then Some (digit_val b, r)
      else re_alt (fun a b => (Ascii.eqb a "3" && between 48 49 b)
                              || (between 49 50 a && is_digit b)
                              || (Ascii.eqb a "0" && between 49 57 b))
                  (between 49 57) l
  | _ => re_alt (fun _ _ => false) (between 49 57) l
  end.

(** [%H]: [2[0-3]|[0-1]\d|\d] *)
Definition re_H : list ascii -> option (Z * list ascii) :=
  re_alt (fun a b => (Ascii.eqb a "2" && between 48 51 b)
                     || (between 48 49 a && is_digit b))
         is_digit.

(** [%M]: [[0-5]\d|\d] *)
Definition re_M : list ascii -> option (Z * list ascii) :=
  re_alt (fun a b => between 48 53 a && is_digit b) is_digit.

(** [%S]: [6[0-1]|[0-5]\d|\d] *)
Definition re_S : list ascii -> option (Z * list ascii) :=
  re_alt (fun a b => (Ascii.eqb a "6" && between 48 49 b)
                     || (between 48 53 a && is_digit b))
         is_digit.

(** A literal character of the format. *)
Definition lit (c : ascii) (l : list ascii) : option (list ascii) :=
  match l with
  | x :: r => if Ascii.eqb x c then Some r else None
  | [] => None
  end.

(** The blank of the format is compiled to [\s+]. *)
Definition spaces1 (l : list ascii) : option (list ascii) :=
  match l with
  | x :: r => if is_space x then Some (lstrip r) else None
  | [] => None
  end.

(** [datetime.strptime(s, "%Y-%m-%d %H:%M:%S")]; [None] is [ValueError]
    (no match, unconverted data, or a date that does not exist). *)
Definition strptime (s : string) : option datetime :=
  '(yy, l) ← re_Y (chars s);
  l ← lit "-" l;
  '(mo, l) ← re_m l;
  l ← lit "-" l;
  '(dd, l) ← re_d l;
  l ← spaces1 l;
  '(hh, l) ← re_H l;
  l ← lit ":" l;
  '(mi, l) ← re_M l;
  l ← lit ":" l;
  '(ss, l) ← re_S l;
  match l with
  | [] => let dt := mk_datetime yy mo dd hh mi ss 0 in
          if valid_datetime dt then Some dt else None
  | _ :: _ => None
  end.

End Datetime.
Export Datetime.

(** ** The application *)

Module App.

(** A document of the [urls] collection, with the keys [shorten] writes.
    [max_clicks] is always the result of [int(...)] or [None], and
    [country_redirect] a dict built by the parser or [None]; the other
    optional fields hold whatever value the request carried. *)
Record url_entry := mk_entry {
  short_id : pyval;
  long_url : pyval;
  clicks : Z;
  password : pyval;
  expiry_date : pyval;
  max_clicks : option Z;
  mobile_url : pyval;
  desktop_url : pyval;
  country_redirect : option (gmap string string)
}.

(** The result of [user_agents.parse] on the [User-Agent] header, as far
    as the handlers look at it.  The two flags are computed apart by the
    library and are not exclusive.  Requests are taken to carry a header
    the library classifies. *)
Record user_agent := mk_ua { is_mobile : bool; is_pc : bool }.

Record request := mk_request {
  method : string;
  is_json : bool;
  json : gmap string pyval;      (* request.get_json(), a JSON object *)
  form : gmap string string;     (* request.form *)
  ua : user_agent;
  x_country : option string      (* request.headers.get("X-Country") *)
}.

(** The collection and the files of [QR_DIR] (by identifier). *)
Record store := mk_store {
  urls : list url_entry;
  qrcodes : gset string
}.

(** *** Helpers *)

Definition is_expired (url_data : url_entry) (now : datetime) : result bool :=
  let expiry := expiry_date url_data in
  past ← (if truthy expiry then
            match expiry with
            | VStr s =>
                match strptime s with
                | Some expiry_dt => Ok (dt_gtb now expiry_dt)
                | None => Raise ValueError
                end
            | _ => Raise TypeError
            end
          else Ok false);
  if (past : bool) then Ok true
  else
    match max_clicks url_data with
    | Some mc =>
        if negb (mc =? 0) && (mc <=? clicks url_data) then Ok true else Ok false
    | None => Ok false
    end.

Definition get_country_redirect (url_data : url_entry) (country_code : string)
  : option string :=
  match country_redirect url_data with
  | Some country_data =>
      if bool_decide (country_data ≠ ∅)
         && bool_decide (is_Some (country_data !! country_code))
      then country_data !! country_code
      else None
  | None => None
  end.

(** *** The collection *)

Definition has_id (sid : pyval) (e : url_entry) : bool :=
  bool_decide (short_id e = sid).

(** [urls.find_one({"short_id": sid})] *)
Definition find_one (sid : pyval) (st : store) : option url_entry :=
  find (has_id sid) (urls st).

Fixpoint update_first (sid : pyval) (f : url_entry -> url_entry)
    (l : list url_entry) : list url_entry :=
  match l with
  | [] => []
  | e :: r => if has_id sid e then f e :: r else e :: update_first sid f r
  end.

(** [urls.update_one({"short_id": sid}, ...)]: the first match only. *)
Definition update_one (sid : pyval) (f : url_entry -> url_entry) (st : store)
  : store :=
  mk_store (update_first sid f (urls st)) (qrcodes st).

Definition insert_one (e : url_entry) (st : store) : store :=
  mk_store (urls st ++ [e]) (qrcodes st).

Definition save_qr (sid : string) (st : store) : store :=
  mk_store (urls st) ({[sid]} ∪ qrcodes st).

(** [{"$inc": {"clicks": 1}}] *)
Definition inc_clicks (e : url_entry) : url_entry :=
  mk_entry (short_id e) (long_url e) (clicks e + 1) (password e)
           (expiry_date e) (max_clicks e) (mobile_url e) (desktop_url e)
           (country_redirect e).

(** *** What the driver can encode

    [insert_one] and [update_one] encode their documents before anything
    is sent: an [int] outside 64 bits raises [OverflowError] there and
    nothing is written. *)

Definition int64 (z : Z) : bool := (- 2 ^ 63 <=? z) && (z <? 2 ^ 63).

Definition encodable (v : pyval) : bool :=
  match v with
  | VInt z => int64 z
  | _ => true
  end.

Definition encodable_entry (e : url_entry) : bool :=
  encodable (short_id e) && encodable (long_url e) && int64 (clicks e)
  && encodable (password e) && encodable (expiry_date e)
  && from_option int64 true (max_clicks e)
  && encodable (mobile_url e) && encodable (desktop_url e).

(** *** Responses *)

Record stats_view := mk_stats {
  s_long_url : pyval;
  s_clicks : Z;
  s_expiry_date : pyval;
  s_max_clicks : option Z;
  s_password_protected : bool;
  s_mobile_url : pyval;
  s_desktop_url : pyval;
  s_country_redirect : option (gmap string string)
}.

(** The dict [update_fields] of [update_url]: per field, [None] when the
    key is not in the dict, [Some v] when it is (with [v] possibly the
    Python [None]). *)
Record update_fields := mk_updates {
  u_password : option pyval;
  u_expiry_date : option pyval;
  u_max_clicks : option (option Z);
  u_mobile_url : option pyval;
  u_desktop_url : option pyval;
  u_country_redirect : option (option (gmap string string))
}.

Inductive response :=
| ShortenForm
| MissingURL
| IdTaken
| Created (short_id : string)
| NotFound
| Expired
| IncorrectPassword
| PasswordForm
| Redirect (target_url : pyval)
| QrImage (short_id : string)
| QrNotFound
| Stats (v : stats_view)
| StatsNotFound
| SendJson
| NoUpdates
| Updated (f : update_fields)
| InternalServerError (e : exn).

Definition status_code (r : response) : Z :=
  match r with
  | ShortenForm | Created _ | PasswordForm | QrImage _ | Stats _ | Updated _ => 200
  | Redirect _ => 302
  | MissingURL | IdTaken | SendJson | NoUpdates => 400
  | Expired | IncorrectPassword => 403
  | NotFound | QrNotFound | StatsNotFound => 404
  | InternalServerError _ => 500
  end.

(** *** [shorten] *)

(** [data.get(name)] or [request.form.get(name)] *)
Definition field (req : request) (name : string) : pyval :=
  if is_json req then default VNone (json req !! name)
  else from_option VStr VNone (form req !! name).

(** The loop over the pairs of a [CODE=URL;CODE=URL] string. *)
Definition parse_country_redirect (s : string) : gmap string string :=
  foldl (fun country_dict pair =>
           match split_once "=" pair with
           | Some (code, url) => <[upper (strip code) := strip url]> country_dict
           | None => country_dict
           end)
        ∅ (split ";" s).

(** [value.split(";")] exists on strings only. *)
Definition country_dict_of (value : pyval) : result (gmap string string) :=
  match value with
  | VStr s => Ok (parse_country_redirect s)
  | _ => Raise AttributeError
  end.

(** The successive results of [generate_short_id()]: the first one the
    collection does not hold; [None] while the loop is still running. *)
Fixpoint first_free (draws : list string) (st : store) : option string :=
  match draws with
  | [] => None
  | d :: ds =>
      match find_one (VStr d) st with
      | Some _ => first_free ds st
      | None => Some d
      end
  end.

Inductive allocation := Taken | Running | Allocated (short_id : pyval).

Definition allocate (custom_id : pyval) (draws : list string) (st : store)
  : allocation :=
  if truthy custom_id then
    match find_one custom_id st with
    | Some _ => Taken
    | None => Allocated custom_id
    end
  else
    match first_free draws st with
    | Some d => Allocated (VStr d)
    | None => Running
    end.

(** [None]: the identifier loop has not ended within [draws].
    [qr_saved] is the outcome of the two calls under [# Generate QR
    code], which is the file system's to decide: whether [qrcode.make]
    and [qr_img.save] went through.  They run after [insert_one]. *)
Definition shorten (req : request) (draws : list string) (qr_saved : bool)
    (st : store) : option (response * store) :=
  if String.eqb (method req) "GET" then Some (ShortenForm, st)
  else
    let long_url := field req "long_url" in
    let custom_id := field req "custom_id" in
    let password := field req "password" in
    let expiry_date := field req "expiry_date" in
    let max_clicks := field req "max_clicks" in
    let mobile_url := field req "mobile_url" in
    let desktop_url := field req "desktop_url" in
    let country_redirect := field req "country_redirect" in
    if negb (truthy long_url) then Some (MissingURL, st)
    else if truthy custom_id && negb (encodable custom_id)
    then Some (InternalServerError OverflowError, st)   (* in [find_one] *)
    else
      match allocate custom_id draws st with
      | Taken => Some (IdTaken, st)
      | Running => None
      | Allocated short_id =>
          let entry :=
            country_dict ← (if truthy country_redirect
                            then Some <$> country_dict_of country_redirect
                            else Ok None);
            mc ← (if truthy max_clicks then Some <$> py_int max_clicks
                  else Ok None);
            Ok (mk_entry short_id long_url 0 (or_none password)
                         (or_none expiry_date) mc (or_none mobile_url)
                         (or_none desktop_url) country_dict) in
          match entry with
          | Raise e => Some (InternalServerError e, st)
          | Ok url_entry =>
              if negb (encodable_entry url_entry)
              then Some (InternalServerError OverflowError, st)
              else
                let st := insert_one url_entry st in
                match short_id with
                | VStr sid =>
                    if qr_saved then Some (Created sid, save_qr sid st)
                    else Some (InternalServerError OSError, st)
                | _ => Some (InternalServerError TypeError, st)
                end
          end
      end.

(** *** [redirect_short_url] *)

Inductive gate := Allow | PasswordRequired | Denied.

(** [request.form.get("password") or (request.json.get("password") if
    request.is_json else None)] *)
Definition input_pwd (req : request) : pyval :=
  py_or (from_option VStr VNone (form req !! "password"))
        (if is_json req then default VNone (json req !! "password")
         else VNone).

(** The block under [# Check password]. *)
Definition check_password (url_data : url_entry) (req : request) : gate :=
  if truthy (password url_data) then
    if String.eqb (method req) "POST" then
      if negb (py_eq (input_pwd req) (password url_data)) then Denied
      else Allow
    else PasswordRequired
  else Allow.

(** The blocks under [# Device-based redirect] and [# Country-based
    redirect]. *)
Definition resolve_target (url_data : url_entry) (req : request) : pyval :=
  let target_url :=
    if is_mobile (ua req) && truthy (mobile_url url_data)
    then mobile_url url_data
    else if is_pc (ua req) && truthy (desktop_url url_data)
    then desktop_url url_data
    else long_url url_data in
  let country_code := upper (default "" (x_country req)) in
  match get_country_redirect url_data country_code with
  | Some country_redirect_url =>
      if truthy (VStr country_redirect_url) then VStr country_redirect_url
      else target_url
  | None => target_url
  end.

Definition redirect_short_url (short_id : string) (req : request)
    (now : datetime) (st : store) : response * store :=
  match find_one (VStr short_id) st with
  | None => (NotFound, st)
  | Some url_data =>
      match is_expired url_data now with
      | Raise e => (InternalServerError e, st)
      | Ok true => (Expired, st)
      | Ok false =>
          match check_password url_data req with
          | Denied => (IncorrectPassword, st)
          | PasswordRequired => (PasswordForm, st)
          | Allow =>
              (Redirect (resolve_target url_data req),
               update_one (VStr short_id) inc_clicks st)
          end
      end
  end.

(** *** [get_qr] and [stats] *)

Definition get_qr (short_id : string) (st : store) : response * store :=
  if bool_decide (short_id ∈ qrcodes st) then (QrImage short_id, st)
  else (QrNotFound, st).

Definition stats (short_id : string) (st : store) : response * store :=
  match find_one (VStr short_id) st with
  | Some url_data =>
      (Stats (mk_stats (long_url url_data) (clicks url_data)
                       (expiry_date url_data) (max_clicks url_data)
                       (truthy (password url_data)) (mobile_url url_data)
                       (desktop_url url_data) (country_redirect url_data)),
       st)
  | None => (StatsNotFound, st)
  end.

(** *** [update_url] *)

(** [value == "" or value is None] *)
Definition clears (value : pyval) : bool :=
  py_eq value (VStr "") || bool_decide (value = VNone).

(** One turn of the loop for a field stored as it comes. *)
Definition plain_update (data : gmap string pyval) (name : string)
  : option pyval :=
  match data !! name with
  | Some value => Some (if clears value then VNone else value)
  | None => None
  end.

Definition max_clicks_update (data : gmap string pyval)
  : result (option (option Z)) :=
  match data !! "max_clicks" with
  | Some value =>
      if clears value then Ok (Some None)
      else z ← py_int value; Ok (Some (Some z))
  | None => Ok None
  end.

Definition country_redirect_update (data : gmap string pyval)
  : result (option (option (gmap string string))) :=
  match data !! "country_redirect" with
  | Some value =>
      if clears value then Ok (Some None)
      else country_dict ← country_dict_of value; Ok (Some (Some country_dict))
  | None => Ok None
  end.

(** The loop over [["password", "expiry_date", "max_clicks", "mobile_url",
    "desktop_url", "country_redirect"]], in that order. *)
Definition collect_updates (data : gmap string pyval) : result update_fields :=
  let pw := plain_update data "password" in
  let ex := plain_update data "expiry_date" in
  mc ← max_clicks_update data;
  let mo := plain_update data "mobile_url" in
  let de := plain_update data "desktop_url" in
  cr ← country_redirect_update data;
  Ok (mk_updates pw ex mc mo de cr).

(** The fields the loop looks for. *)
Definition update_keys : list string :=
  ["password"; "expiry_date"; "max_clicks"; "mobile_url"; "desktop_url";
   "country_redirect"].

(** [not update_fields] *)
Definition no_updates (f : update_fields) : bool :=
  match f with
  | mk_updates None None None None None None => true
  | _ => false
  end.

Definition encodable_updates (f : update_fields) : bool :=
  from_option encodable true (u_password f)
  && from_option encodable true (u_expiry_date f)
  && from_option (from_option int64 true) true (u_max_clicks f)
  && from_option encodable true (u_mobile_url f)
  && from_option encodable true (u_desktop_url f).

(** [{"$set": update_fields}] *)
Definition set_fields (f : update_fields) (e : url_entry) : url_entry :=
  mk_entry (short_id e) (long_url e) (clicks e)
           (default (password e) (u_password f))
           (default (expiry_date e) (u_expiry_date f))
           (default (max_clicks e) (u_max_clicks f))
           (default (mobile_url e) (u_mobile_url f))
           (default (desktop_url e) (u_desktop_url f))
           (default (country_redirect e) (u_country_redirect f)).

Definition update_url (short_id : string) (req : request) (st : store)
  : response * store :=
  match find_one (VStr short_id) st with
  | None => (NotFound, st)
  | Some _ =>
      if negb (is_json req) then (SendJson, st)
      else
        match collect_updates (json req) with
        | Raise e => (InternalServerError e, st)
        | Ok update_fields =>
            if no_updates update_fields then (NoUpdates, st)
            else if negb (encodable_updates update_fields)
            then (InternalServerError OverflowError, st)
            else (Updated update_fields,
                  update_one (VStr short_id) (set_fields update_fields) st)
        end
  end.

(** *** The service as a transition system *)

Inductive op :=
| Shorten (req : request) (draws : list string) (qr_saved : bool)
| Visit (short_id : string) (req : request) (now : datetime)
| GetQr (short_id : string)
| GetStats (short_id : string)
| Update (short_id : string) (req : request).

Definition run (o : op) (st : store) : option (response * store) :=
  match o with
  | Shorten req draws qr_saved => shorten req draws qr_saved st
  | Visit sid req now => Some (redirect_short_url sid req now st)
  | GetQr sid => Some (get_qr sid st)
  | GetStats sid => Some (stats sid st)
  | Update sid req => Some (update_url sid req st)
  end.

Inductive step : store -> op -> response -> store -> Prop :=
| step_run st o r st' : run o st = Some (r, st') -> step st o r st'.

(** Runs of the service: the operations performed, oldest first. *)
Inductive reaches : store -> list op -> store -> Prop :=
| reaches_nil st : reaches st [] st
| reaches_cons st o r st1 os st2 :
    step st o r st1 -> reaches st1 os st2 -> reaches st (o :: os) st2.

Definition empty_store : store := mk_store [] ∅.

End App.
Export App.

(** ** Relations between successive states of the collection *)

Module Invariant.

(** [e'] is a later state of the record [e]: same identifier, and a
    counter that did not go down. *)
Definition grows (e e' : url_entry) : Prop :=
  short_id e' = short_id e /\ clicks e <= clicks e'.

(** Every record of [st] is still in [st'], at its place, grown. *)
Definition keeps (st st' : store) : Prop :=
  forall i e, urls st !! i = Some e ->
              exists e', urls st' !! i = Some e' /\ grows e e'.

(** The document [shorten] builds for a request and an identifier: the
    country parser, then the dict under [# Save to DB]. *)
Definition entry_for (req : request) (short_id : pyval) : result url_entry :=
  country_dict ← (if truthy (field req "country_redirect")
                  then Some <$> country_dict_of (field req "country_redirect")
                  else Ok None);
  mc ← (if truthy (field req "max_clicks")
        then Some <$> py_int (field req "max_clicks")
        else Ok None);
  Ok (mk_entry short_id (field req "long_url") 0
               (or_none (field req "password"))
               (or_none (field req "expiry_date")) mc
               (or_none (field req "mobile_url"))
               (or_none (field req "desktop_url")) country_dict).

End Invariant.
Export Invariant.

(** ** Concrete requests and stores used by the examples below *)

Module Scenario.

Definition now0 : datetime := mk_datetime 2026 1 1 12 0 0 0.

Definition desktop : user_agent := mk_ua false true.
Definition phone : user_agent := mk_ua true false.

Definition get (agent : user_agent) (country : option string) : request :=
  mk_request "GET" false ∅ ∅ agent country.

Definition post_form (fields : gmap string string) : request :=
  mk_request "POST" false ∅ fields desktop None.

Definition post_json (body : gmap string pyval) : request :=
  mk_request "POST" true body ∅ desktop None.

(** A creation request with a custom identifier and no other option. *)
Definition create (sid url : string) (extra : gmap string pyval) : request :=
  post_json (<["long_url" := VStr url]> (<["custom_id" := VStr sid]> extra)).

(** The request [req] sent from another agent. *)
Definition with_agent (agent : user_agent) (req : request) : request :=
  mk_request (method req) (is_json req) (json req) (form req) agent
             (x_country req).

Definition store_after (o : op) (st : store) : store :=
  match run o st with
  | Some (_, st') => st'
  | None => st
  end.

Definition reply (o : op) (st : store) : option response :=
  fst <$> run o st.

Definition past_entry : url_entry :=
  mk_entry (VStr "old") (VStr "https://example.com") 0 VNone
           (VStr "2025-12-31 23:59:59") None VNone VNone None.

Definition capped_entry (n : Z) : url_entry :=
  mk_entry (VStr "cap") (VStr "https://example.com") n VNone
           (VStr "2026-01-01 12:00:00") (Some 2) VNone VNone None.

(** A record whose country mapping sends [US] to the empty string, as
    [country_redirect = "US="] creates it. *)
Definition blank_country_entry : url_entry :=
  mk_entry (VStr "geo") (VStr "https://example.com") 0 VNone VNone None
           VNone VNone (Some {["US" := ""]}).

Definition locked_entry : url_entry :=
  mk_entry (VStr "vault") (VStr "https://example.com") 0 (VStr "secret")
           VNone None VNone VNone None.

Definition locked_store : store := mk_store [locked_entry] ∅.

Definition geo_entry : url_entry :=
  mk_entry (VStr "geo") (VStr "https://x.com") 0 VNone VNone None
           (VStr "https://m.x.com") (VStr "https://d.x.com")
           (Some (<["US" := "https://us.x.com"]> {["IN" := "https://in.x.com"]})).

(** Creation with a pair whose country code is empty. *)
Definition blank_code_create : request :=
  create "promo" "https://example.com"
         {["country_redirect" := VStr "=https://evil.example"]}.

Definition blank_code_store : store :=
  store_after (Shorten blank_code_create [] true) empty_store.

(** Creation with an expiry date that is not in the format. *)
Definition bad_date_create : request :=
  create "soon" "https://example.com" {["expiry_date" := VStr "tomorrow"]}.

Definition bad_date_store : store :=
  store_after (Shorten bad_date_create [] true) empty_store.

Definition bad_date_entry : url_entry :=
  mk_entry (VStr "soon") (VStr "https://example.com") 0 VNone
           (VStr "tomorrow") None VNone VNone None.

Definition bad_max_clicks : request :=
  post_json {["max_clicks" := VStr "abc"]}.

Definition set_long_url : request :=
  post_json {["long_url" := VStr "https://other.example"]}.

(** The stores of the end-to-end scenarios. *)
Definition capped_create : request :=
  create "two" "https://example.com" {["max_clicks" := VInt 2]}.

Definition capped_store (visits : nat) : store :=
  Nat.iter visits (store_after (Visit "two" (get desktop None) now0))
           (store_after (Shorten capped_create [] true) empty_store).

Definition geo_create : request :=
  create "geo" "https://x.com"
         {["country_redirect" := VStr "US=https://us.x.com;IN=https://in.x.com"]}.

Definition geo_store : store :=
  store_after (Shorten geo_create [] true) empty_store.

Definition blank_country_create : request :=
  create "geo" "https://example.com" {["country_redirect" := VStr "US="]}.

(** Creation from the HTML form with every optional input left empty. *)
Definition blank_form_create : request :=
  post_form (<["long_url" := "https://example.com"]>
             (<["custom_id" := "plain"]>
              (<["password" := ""]>
               (<["expiry_date" := ""]>
                (<["max_clicks" := ""]>
                 (<["mobile_url" := ""]>
                  (<["desktop_url" := ""]>
                   {["country_redirect" := ""]}))))))).

Definition blank_form_store : store :=
  store_after (Shorten blank_form_create [] true) empty_store.

End Scenario.

(** ** The sentences of the specification that the code does not satisfy,
    as they are written *)

Module AsStated.

(** A matching country code always yields the mapped URL. *)
Definition country_always_wins : Prop :=
  forall (e : url_entry) (req : request) (country_data : gmap string string)
         (u : string),
    country_redirect e = Some country_data ->
    country_data !! upper (default "" (x_country req)) = Some u ->
    resolve_target e req = VStr u.

Definition carries_password (req : request) : Prop :=
  is_Some (form req !! "password")
  \/ (is_json req = true /\ is_Some (json req !! "password")).

(** A request without a password field is re-prompted, never denied. *)
Definition prompt_without_field : Prop :=
  forall (e : url_entry) (sid : string) (req : request) (now : datetime)
         (st : store),
    find_one (VStr sid) st = Some e ->
    is_expired e now = Ok false ->
    truthy (password e) = true ->
    ~ carries_password req ->
    (redirect_short_url sid req now st).1 = PasswordForm.

(** Every record the operations can produce has an [is_expired] that
    returns. *)
Definition is_expired_never_raises : Prop :=
  forall (ops : list op) (st : store) (e : url_entry) (now : datetime),
    reaches empty_store ops st -> e ∈ urls st ->
    exists b, is_expired e now = Ok b.

(** Some update with a [long_url] member changes the stored [long_url]. *)
Definition long_url_mutable : Prop :=
  exists (sid : string) (req : request) (st : store) (e e' : url_entry),
    is_Some (json req !! "long_url")
    /\ find_one (VStr sid) st = Some e
    /\ find_one (VStr sid) (update_url sid req st).2 = Some e'
    /\ long_url e' <> long_url e.

(** A [max_clicks] that is not an integer is answered 400. *)
Definition bad_max_clicks_is_400 : Prop :=
  forall (sid : string) (req : request) (st : store) (v : pyval),
    is_Some (find_one (VStr sid) st) ->
    is_json req = true ->
    json req !! "max_clicks" = Some v ->
    clears v = false ->
    raises (py_int v) ->
    status_code (update_url sid req st).1 = 400
    /\ (update_url sid req st).2 = st.

End AsStated.

(** ** The identifier generator *)

Module Generator.

(** [string.ascii_letters + string.digits] *)
Definition alphabet : string :=
  "abcdefghijklmnopqrstuvwxyzABCDEFGHIJKLMNOPQRSTUVWXYZ0123456789".

(** [generate_short_id(num_chars)]: [random.choices] draws [num_chars]
    characters of the alphabet, with replacement.  The random source is
    [rand]: its [j]-th outcome, reduced below the size of the alphabet,
    is the index of the [j]-th character. *)
Definition generate_short_id (num_chars : nat) (rand : nat -> nat) : string :=
  str (map (fun j => nth (rand j mod 62) (chars alphabet) "a"%char)
           (seq 0 num_chars)).

Definition is_alnum (c : ascii) : bool :=
  let n := code c in
  ((48 <=? n) && (n <=? 57)) || ((65 <=? n) && (n <=? 90))
  || ((97 <=? n) && (n <=? 122)).

End Generator.
Export Generator.

(** ** Properties of stores and derived operations *)

Module Derived.

(** No two records share an identifier. *)
Definition unique_ids (st : store) : Prop := NoDup (short_id <$> urls st).

(** The store after [k] visits of [sid] with the same request. *)
Definition visits (k : nat) (sid : string) (req : request) (now : datetime)
    (st : store) : store :=
  Nat.iter k (fun s => (redirect_short_url sid req now s).2) st.

(** The request [req] with another [X-Country] header. *)
Definition with_country (country : option string) (req : request) : request :=
  mk_request (method req) (is_json req) (json req) (form req) (ua req) country.

(** The record [e] with another counter. *)
Definition with_clicks (n : Z) (e : url_entry) : url_entry :=
  mk_entry (short_id e) (long_url e) n (password e) (expiry_date e)
           (max_clicks e) (mobile_url e) (desktop_url e) (country_redirect e).

(** The characters of a string. *)
Definition has_char (c : ascii) (s : string) : Prop := In c (chars s).

(** The target the block under [# Device-based redirect] picks. *)
Definition device_target (e : url_entry) (req : request) : pyval :=
  if is_mobile (ua req) && truthy (mobile_url e) then mobile_url e
  else if is_pc (ua req) && truthy (desktop_url e) then desktop_url e
  else long_url e.

(** One turn of the loop of the country parser. *)
Definition parse_step (country_dict : gmap string string) (pair : string)
  : gmap string string :=
  match split_once "=" pair with
  | Some (code, url) => <[upper (strip code) := strip url]> country_dict
  | None => country_dict
  end.

End Derived.
Export Derived.

(** ** More concrete requests, records and stores *)

Module Samples.
Import Scenario.

Definition sample_rand (j : nat) : nat := (7 * j + 3)%nat.

Definition plain_create : request :=
  post_form {["long_url" := "https://example.com"]}.

Definition bad_cap_create : request :=
  create "promo" "https://example.com" {["max_clicks" := VStr "12 clicks"]}.

Definition capped_record : url_entry :=
  mk_entry (VStr "two") (VStr "https://example.com") 0 VNone VNone (Some 2)
           VNone VNone None.

Definition closed_record : url_entry :=
  mk_entry (VStr "shut") (VStr "https://example.com") 0 VNone VNone
           (Some (-1)) VNone VNone None.

Definition closed_store : store := mk_store [closed_record] ∅.


Definition two_records : store := mk_store [locked_entry; geo_entry] ∅.

Definition unlock_and_cap : request :=
  post_json (<["password" := VStr ""]> {["max_clicks" := VStr "5"]}).

Definition unlock_and_cap_fields : update_fields :=
  mk_updates (Some VNone) None (Some (Some 5)) None None None.

Definition geo_run : list op :=
  [Shorten geo_create [] true; Visit "geo" (get phone (Some "us")) now0].

Definition geo_visited : store :=
  store_after (Visit "geo" (get phone (Some "us")) now0) geo_store.

End Samples.
Export Samples.

Import Scenario.

(** ** Expiry and quota *)

Section Expiry.

Lemma strptime_empty : strptime "" = None.
Proof. reflexivity. Qed.

Lemma strptime_truthy s dt : strptime s = Some dt -> truthy (VStr s) = true.
Proof.
  destruct s as [|c s]; [rewrite strptime_empty; discriminate | reflexivity].
Qed.

(** The value [is_expired] returns once the date check has not fired. *)
Lemma is_expired_quota_only e now :
  (truthy (expiry_date e) = false
   \/ exists s dt, expiry_date e = VStr s /\ strptime s = Some dt
                   /\ dt_ltb dt now = false) ->
  is_expired e now =
  Ok (match max_clicks e with
      | Some mc => negb (mc =? 0) && (mc <=? clicks e)
      | None => false
      end).
Proof.
  intros [Hnone | (s & dt & Hs & Hp & Hlt)]; unfold is_expired.
  - rewrite Hnone. simpl. destruct (max_clicks e) as [mc|]; [|reflexivity].
    destruct (negb (mc =? 0) && (mc <=? clicks e)); reflexivity.
  - rewrite Hs, (strptime_truthy _ _ Hp), Hp. unfold dt_gtb. rewrite Hlt. simpl.
    destruct (max_clicks e) as [mc|]; [|reflexivity].
    destruct (negb (mc =? 0) && (mc <=? clicks e)); reflexivity.
Qed.

Lemma is_expired_past e now s dt :
  expiry_date e = VStr s -> strptime s = Some dt -> dt_ltb dt now = true ->
  is_expired e now = Ok true.
Proof.
  intros Hs Hp Hlt. unfold is_expired.
  rewrite Hs, (strptime_truthy _ _ Hp), Hp. unfold dt_gtb. rewrite Hlt.
  reflexivity.
Qed.

End Expiry.

(** C3: [is_expired] is the disjunction of the date check and the quota
    check.  A well-formed [expiry_date] strictly before [now] gives [True];
    when the date is absent, or well-formed and not before [now], the
    result is the quota check alone: with [max_clicks = N > 0] it is [False]
    while [clicks < N] and [True] once [clicks >= N], and with no
    [max_clicks] it is [False]. *)
Theorem is_expired_disjunction (e : url_entry) (now : datetime) :
  (forall s dt, expiry_date e = VStr s -> strptime s = Some dt ->
                dt_ltb dt now = true -> is_expired e now = Ok true)
  /\ ((expiry_date e = VNone
       \/ exists s dt, expiry_date e = VStr s /\ strptime s = Some dt
                       /\ dt_ltb dt now = false) ->
      (forall N, max_clicks e = Some N -> 0 < N ->
                 (clicks e < N -> is_expired e now = Ok false)
                 /\ (N <= clicks e -> is_expired e now = Ok true))
      /\ (max_clicks e = None -> is_expired e now = Ok false)).
Proof.
  split; [intros s dt; apply is_expired_past |].
  intros Hdate.
  assert (Hq := is_expired_quota_only e now).
  rewrite Hq by (destruct Hdate as [-> | ?]; [left; reflexivity | right; assumption]).
  clear Hq. split.
  - intros N -> HN. split; intros Hc; f_equal.
    + apply andb_false_iff. right. apply Z.leb_gt. exact Hc.
    + apply andb_true_iff. split; [|apply Z.leb_le; exact Hc].
      apply negb_true_iff, Z.eqb_neq. lia.
  - intros ->. reflexivity.
Qed.

Lemma is_expired_disjunction_witness :
  is_expired past_entry now0 = Ok true
  /\ is_expired (capped_entry 1) now0 = Ok false
  /\ is_expired (capped_entry 2) now0 = Ok true.
Proof.
  split; [|split].
  - apply (proj1 (is_expired_disjunction past_entry now0)
             "2025-12-31 23:59:59" (mk_datetime 2025 12 31 23 59 59 0));
      reflexivity.
  - assert (Hdate : expiry_date (capped_entry 1) = VNone
                     \/ exists s dt, expiry_date (capped_entry 1) = VStr s
                          /\ strptime s = Some dt /\ dt_ltb dt now0 = false).
    { right. exists "2026-01-01 12:00:00", (mk_datetime 2026 1 1 12 0 0 0).
      repeat split; reflexivity. }
    destruct (proj2 (is_expired_disjunction (capped_entry 1) now0) Hdate)
      as [Hquota _].
    apply (Hquota 2); [reflexivity | lia | simpl; lia].
  - assert (Hdate : expiry_date (capped_entry 2) = VNone
                     \/ exists s dt, expiry_date (capped_entry 2) = VStr s
                          /\ strptime s = Some dt /\ dt_ltb dt now0 = false).
    { right. exists "2026-01-01 12:00:00", (mk_datetime 2026 1 1 12 0 0 0).
      repeat split; reflexivity. }
    destruct (proj2 (is_expired_disjunction (capped_entry 2) now0) Hdate)
      as [Hquota _].
    apply (Hquota 2); [reflexivity | lia | simpl; lia].
Defined.

(** ** Target resolution *)

Section Resolver.

Lemma get_country_redirect_lookup e cc :
  get_country_redirect e cc = country_redirect e ≫= (fun d => d !! cc).
Proof.
  unfold get_country_redirect. destruct (country_redirect e) as [d|]; simpl; [|reflexivity].
  destruct (d !! cc) as [u|] eqn:Hl.
  - rewrite !bool_decide_eq_true_2; [reflexivity | eauto |].
    intros ->. rewrite lookup_empty in Hl. discriminate.
  - rewrite (bool_decide_eq_false_2 (is_Some None)) by (intros [? ?]; discriminate).
    rewrite andb_false_r. reflexivity.
Qed.

(** What a [Redirect] response carries. *)
Lemma redirect_carries_resolved sid req now st t st' :
  redirect_short_url sid req now st = (Redirect t, st') ->
  exists e, find_one (VStr sid) st = Some e /\ t = resolve_target e req.
Proof.
  unfold redirect_short_url. destruct (find_one (VStr sid) st) as [e|]; [|discriminate].
  destruct (is_expired e now) as [[|]|]; try discriminate.
  destruct (check_password e req); try discriminate.
  intros [= <- _]. eauto.
Qed.

End Resolver.

(** C1 (amended): the resolved target obeys country override > device
    override > [long_url].  If the uppercased country code of the request
    is a key of [country_redirect] and the URL mapped to it is not empty,
    the target is that URL whatever the device flags and device URLs are.
    Otherwise (no such key, or an empty URL mapped to it) the target is
    [mobile_url] for a mobile agent when [mobile_url] is set, else
    [desktop_url] for a desktop agent when [desktop_url] is set, else
    [long_url].  Every redirect response carries this target. *)
Theorem resolve_precedence (e : url_entry) (req : request) :
  let country_code := upper (default "" (x_country req)) in
  let mapped := country_redirect e ≫= (fun d => d !! country_code) in
  (forall u, mapped = Some u -> u <> "" -> resolve_target e req = VStr u)
  /\ ((mapped = None \/ mapped = Some "") ->
      (is_mobile (ua req) = true -> truthy (mobile_url e) = true ->
       resolve_target e req = mobile_url e)
      /\ ((is_mobile (ua req) = false \/ truthy (mobile_url e) = false) ->
          is_pc (ua req) = true -> truthy (desktop_url e) = true ->
          resolve_target e req = desktop_url e)
      /\ ((is_mobile (ua req) = false \/ truthy (mobile_url e) = false) ->
          (is_pc (ua req) = false \/ truthy (desktop_url e) = false) ->
          resolve_target e req = long_url e))
  /\ (forall sid now st t st',
        find_one (VStr sid) st = Some e ->
        redirect_short_url sid req now st = (Redirect t, st') ->
        t = resolve_target e req).
Proof.
  intros country_code mapped. unfold resolve_target.
  rewrite get_country_redirect_lookup. fold country_code. fold mapped.
  split; [|split].
  - intros u -> Hu. simpl. destruct u; [congruence | reflexivity].
  - intros Hmapped.
    assert (Hdev : forall dev : pyval,
               match mapped with
               | Some u => if truthy (VStr u) then VStr u else dev
               | None => dev
               end = dev).
    { intros dev. destruct Hmapped as [-> | ->]; reflexivity. }
    rewrite Hdev. clear Hdev. split; [|split].
    + intros -> ->. reflexivity.
    + intros Hm -> ->. destruct Hm as [-> | ->]; [reflexivity|].
      rewrite andb_false_r. reflexivity.
    + intros Hm Hp.
      assert (is_mobile (ua req) && truthy (mobile_url e) = false) as ->
        by (destruct Hm as [-> | ->]; [reflexivity | apply andb_false_r]).
      assert (is_pc (ua req) && truthy (desktop_url e) = false) as ->
        by (destruct Hp as [-> | ->]; [reflexivity | apply andb_false_r]).
      reflexivity.
  - intros sid now st t st' Hfind Hred.
    destruct (redirect_carries_resolved _ _ _ _ _ _ Hred) as (e' & He' & ->).
    rewrite Hfind in He'. injection He' as <-.
    unfold resolve_target. rewrite get_country_redirect_lookup. reflexivity.
Qed.

Lemma resolve_precedence_witness :
  resolve_target geo_entry (get phone (Some "in")) = VStr "https://in.x.com"
  /\ resolve_target geo_entry (get phone (Some "FR")) = VStr "https://m.x.com"
  /\ resolve_target geo_entry (get desktop None) = VStr "https://d.x.com".
Proof.
  split; [|split].
  - apply (proj1 (resolve_precedence geo_entry (get phone (Some "in"))));
      [vm_compute; reflexivity | discriminate].
  - destruct (resolve_precedence geo_entry (get phone (Some "FR")))
      as (_ & Hdevice & _).
    destruct Hdevice as (Hmobile & _ & _); [left; vm_compute; reflexivity|].
    apply Hmobile; reflexivity.
  - destruct (resolve_precedence geo_entry (get desktop None))
      as (_ & Hdevice & _).
    destruct Hdevice as (_ & Hdesktop & _); [left; vm_compute; reflexivity|].
    apply Hdesktop; [left; reflexivity | reflexivity | reflexivity].
Defined.

(** C1, as stated, fails on a record that maps the country code to an
    empty URL: the device and [long_url] logic decides instead. *)
Lemma country_always_wins_fails : ~ AsStated.country_always_wins.
Proof.
  intros H.
  specialize (H blank_country_entry (get desktop (Some "us")) {["US" := ""]} "").
  vm_compute in H. specialize (H eq_refl eq_refl). discriminate.
Qed.

(** ** The password gate *)

Section Gate.

Lemma py_eq_str v p : py_eq v (VStr p) = true <-> v = VStr p.
Proof.
  destruct v as [|b|z|s]; simpl; try (split; [discriminate|congruence]).
  rewrite String.eqb_eq. split; congruence.
Qed.

(** The response of the handler on a stored, unexpired record, by gate
    outcome. *)
Lemma redirect_by_gate sid req now st e :
  find_one (VStr sid) st = Some e ->
  is_expired e now = Ok false ->
  redirect_short_url sid req now st =
  match check_password e req with
  | Denied => (IncorrectPassword, st)
  | PasswordRequired => (PasswordForm, st)
  | Allow => (Redirect (resolve_target e req),
              update_one (VStr sid) inc_clicks st)
  end.
Proof. intros Hf He. unfold redirect_short_url. rewrite Hf, He. reflexivity. Qed.

End Gate.

(** C2 (amended): on a stored, unexpired record the gate goes by the
    request method.  With no password set the request is always let
    through.  With a password set, a request whose method is not [POST]
    gets the password form (status 200), whatever it carries; a [POST] is
    let through exactly when the submitted value (the form field if it is
    not empty, else the JSON member) equals the stored password, and is
    answered 403 otherwise, also when it carries no password at all.  For
    a stored string, equality is equality of strings, case included. *)
Theorem access_gate (e : url_entry) (sid : string) (req : request)
    (now : datetime) (st : store)
    (Hfound : find_one (VStr sid) st = Some e)
    (Hlive : is_expired e now = Ok false) :
  let resp := (redirect_short_url sid req now st).1 in
  (truthy (password e) = false -> resp = Redirect (resolve_target e req))
  /\ (truthy (password e) = true -> method req <> "POST" ->
      resp = PasswordForm /\ status_code resp = 200)
  /\ (truthy (password e) = true -> method req = "POST" ->
      (py_eq (input_pwd req) (password e) = true ->
       resp = Redirect (resolve_target e req))
      /\ (py_eq (input_pwd req) (password e) = false ->
          resp = IncorrectPassword /\ status_code resp = 403))
  /\ (form req !! "password" = None ->
      (is_json req = false \/ json req !! "password" = None) ->
      input_pwd req = VNone)
  /\ (forall v, form req !! "password" = Some v -> v <> "" ->
                input_pwd req = VStr v)
  /\ (forall v, (form req !! "password" = None \/ form req !! "password" = Some "") ->
                is_json req = true -> json req !! "password" = Some v ->
                input_pwd req = v)
  /\ (forall p v, password e = VStr p ->
                  (py_eq v (password e) = true <-> v = VStr p)).
Proof.
  intros resp. subst resp. rewrite (redirect_by_gate _ _ _ _ _ Hfound Hlive).
  unfold check_password.
  repeat match goal with |- _ /\ _ => split end.
  - intros ->. reflexivity.
  - intros -> Hm. apply String.eqb_neq in Hm. rewrite Hm. split; reflexivity.
  - intros -> ->. simpl. split; intros ->; simpl; [reflexivity | split; reflexivity].
  - intros Hform Hjson. unfold input_pwd. rewrite Hform. simpl.
    destruct Hjson as [-> | ->]; [reflexivity|].
    destruct (is_json req); reflexivity.
  - intros v Hform Hv. unfold input_pwd. rewrite Hform. simpl.
    destruct v; [congruence | reflexivity].
  - intros v Hform Hj Hjson. unfold input_pwd. rewrite Hj, Hjson.
    destruct Hform as [-> | ->]; reflexivity.
  - intros p v ->. apply py_eq_str.
Qed.

Lemma access_gate_witness :
  (redirect_short_url "vault" (get desktop None) now0 locked_store).1 = PasswordForm
  /\ (redirect_short_url "vault" (post_form {["password" := "Secret"]}) now0
        locked_store).1 = IncorrectPassword
  /\ (redirect_short_url "vault" (post_form {["password" := "secret"]}) now0
        locked_store).1 = Redirect (VStr "https://example.com").
Proof.
  split; [|split].
  - destruct (access_gate locked_entry "vault" (get desktop None) now0
                locked_store eq_refl eq_refl) as (_ & Hprompt & _).
    apply Hprompt; [reflexivity | discriminate].
  - destruct (access_gate locked_entry "vault"
                (post_form {["password" := "Secret"]}) now0
                locked_store eq_refl eq_refl) as (_ & _ & Hpost & _).
    destruct Hpost as [_ Hdeny]; [reflexivity | reflexivity |].
    apply Hdeny. vm_compute. reflexivity.
  - destruct (access_gate locked_entry "vault"
                (post_form {["password" := "secret"]}) now0
                locked_store eq_refl eq_refl) as (_ & _ & Hpost & _).
    destruct Hpost as [Hallow _]; [reflexivity | reflexivity |].
    apply Hallow. vm_compute. reflexivity.
Defined.

(** C2, as stated, fails on a [POST] that carries no password field: it is
    answered 403, not re-prompted. *)
Lemma prompt_without_field_fails : ~ AsStated.prompt_without_field.
Proof.
  intros H.
  specialize (H locked_entry "vault" (post_form ∅) now0 locked_store
                eq_refl eq_refl eq_refl).
  assert (Hno : ~ AsStated.carries_password (post_form ∅)).
  { intros [[v Hv] | [Hj _]]; [|discriminate].
    simpl in Hv. rewrite lookup_empty in Hv. discriminate. }
  specialize (H Hno). vm_compute in H. discriminate.
Qed.

(** ** The click counter *)

Section Clicks.

Lemma grows_refl e : grows e e.
Proof. split; [reflexivity | lia]. Qed.

Lemma grows_trans e1 e2 e3 : grows e1 e2 -> grows e2 e3 -> grows e1 e3.
Proof. intros [H1 H2] [H3 H4]. split; [congruence | lia]. Qed.

Lemma grows_inc e : grows e (inc_clicks e).
Proof. split; simpl; [reflexivity | lia]. Qed.

Lemma grows_set f e : grows e (set_fields f e).
Proof. split; simpl; [reflexivity | lia]. Qed.

(** [update_one] rewrites the first match in place. *)
Lemma update_first_insert sid f l e :
  find (has_id sid) l = Some e ->
  exists i, l !! i = Some e /\ has_id sid e = true
            /\ update_first sid f l = <[i := f e]> l.
Proof.
  induction l as [|x l IH]; simpl; [discriminate|].
  destruct (has_id sid x) eqn:Hx.
  - intros [= ->]. exists 0%nat. repeat split; assumption.
  - intros Hf. destruct (IH Hf) as (i & Hi & He & Hu).
    exists (S i). simpl. rewrite Hu. repeat split; assumption.
Qed.

Lemma update_first_none sid f l :
  find (has_id sid) l = None -> update_first sid f l = l.
Proof.
  induction l as [|x l IH]; simpl; [reflexivity|].
  destruct (has_id sid x); [discriminate|]. intros Hf. rewrite IH by assumption.
  reflexivity.
Qed.

Lemma update_first_grows sid f l :
  (forall e, grows e (f e)) ->
  forall i e, l !! i = Some e ->
              exists e', update_first sid f l !! i = Some e' /\ grows e e'.
Proof.
  intros Hf i e Hi. destruct (find (has_id sid) l) as [x|] eqn:Hfind.
  - destruct (update_first_insert sid f l x Hfind) as (j & Hj & _ & ->).
    destruct (decide (i = j)) as [->|Hne].
    + rewrite list_lookup_insert_eq by (eapply lookup_lt_Some; eassumption).
      rewrite Hi in Hj. injection Hj as <-. eauto.
    + rewrite list_lookup_insert_ne by congruence.
      eauto using grows_refl.
  - rewrite update_first_none by assumption. eauto using grows_refl.
Qed.

Lemma keeps_refl st : keeps st st.
Proof. intros i e Hi. eauto using grows_refl. Qed.

Lemma keeps_trans st1 st2 st3 : keeps st1 st2 -> keeps st2 st3 -> keeps st1 st3.
Proof.
  intros H12 H23 i e Hi.
  destruct (H12 i e Hi) as (e2 & Hi2 & Hg2).
  destruct (H23 i e2 Hi2) as (e3 & Hi3 & Hg3).
  eauto using grows_trans.
Qed.

Lemma keeps_update_one sid f st :
  (forall e, grows e (f e)) -> keeps st (update_one sid f st).
Proof. intros Hf i e Hi. simpl. apply update_first_grows; assumption. Qed.

Lemma keeps_insert_one e st : keeps st (insert_one e st).
Proof.
  intros i x Hi. simpl. exists x. split; [|apply grows_refl].
  apply lookup_app_l_Some. assumption.
Qed.

Lemma first_free_fresh draws st d :
  first_free draws st = Some d -> find_one (VStr d) st = None.
Proof.
  induction draws as [|x draws IH]; simpl; [discriminate|].
  destruct (find_one (VStr x) st) eqn:Hx; [exact IH|].
  intros [= <-]. exact Hx.
Qed.

Lemma allocate_fresh custom_id draws st sid :
  allocate custom_id draws st = Allocated sid -> find_one sid st = None.
Proof.
  unfold allocate. destruct (truthy custom_id).
  - destruct (find_one custom_id st) eqn:Hc; [discriminate|].
    intros [= <-]. exact Hc.
  - destruct (first_free draws st) as [d|] eqn:Hd; [|discriminate].
    intros [= <-]. eapply first_free_fresh. eassumption.
Qed.

Lemma find_app_fresh sid l e :
  find (has_id sid) l = None -> has_id sid e = true ->
  find (has_id sid) (l ++ [e]) = Some e.
Proof.
  intros Hl He. induction l as [|x l IH]; simpl in *; [rewrite He; reflexivity|].
  destruct (has_id sid x); [discriminate|]. apply IH. assumption.
Qed.

(** The identifier loop ends as soon as one draw is free. *)
Lemma first_free_some draws st d :
  d ∈ draws -> find_one (VStr d) st = None -> is_Some (first_free draws st).
Proof.
  intros Hd Hfree. induction draws as [|x draws IH]; [inversion Hd|].
  simpl. destruct (find_one (VStr x) st) eqn:Hx; [|eauto].
  apply IH. apply elem_of_cons in Hd as [-> | Hd]; [congruence | exact Hd].
Qed.

Lemma entry_for_ok req sid0 e :
  entry_for req sid0 = Ok e ->
  short_id e = sid0
  /\ long_url e = field req "long_url"
  /\ clicks e = 0
  /\ password e = or_none (field req "password")
  /\ expiry_date e = or_none (field req "expiry_date")
  /\ mobile_url e = or_none (field req "mobile_url")
  /\ desktop_url e = or_none (field req "desktop_url")
  /\ (if truthy (field req "max_clicks")
      then exists z, py_int (field req "max_clicks") = Ok z
                     /\ max_clicks e = Some z
      else max_clicks e = None)
  /\ (if truthy (field req "country_redirect")
      then exists s, field req "country_redirect" = VStr s
                     /\ country_redirect e = Some (parse_country_redirect s)
      else country_redirect e = None).
Proof.
  unfold entry_for.
  destruct (truthy (field req "country_redirect")).
  - destruct (field req "country_redirect") as [|b|z|s]; simpl; try discriminate.
    destruct (truthy (field req "max_clicks")).
    + destruct (py_int (field req "max_clicks")) as [z|]; simpl; [|discriminate].
      intros [= <-]. simpl. repeat split; eauto.
    + simpl. intros [= <-]. simpl. repeat split; eauto.
  - simpl. destruct (truthy (field req "max_clicks")).
    + destruct (py_int (field req "max_clicks")) as [z|]; simpl; [|discriminate].
      intros [= <-]. simpl. repeat split; eauto.
    + simpl. intros [= <-]. simpl. repeat split; eauto.
Qed.

(** The ways [shorten] can end: before anything is written; or after the
    insert, with the QR image saved, with the QR step failed, or, for a
    custom identifier that is not a string, with the short URL failed. *)
Lemma shorten_cases req draws qr st resp st' :
  shorten req draws qr st = Some (resp, st') ->
  (st' = st
   /\ (resp = ShortenForm \/ resp = MissingURL \/ resp = IdTaken
       \/ resp = InternalServerError OverflowError
       \/ exists sid0 x, entry_for req sid0 = Raise x
                         /\ resp = InternalServerError x))
  \/ exists sid0 e,
      allocate (field req "custom_id") draws st = Allocated sid0
      /\ entry_for req sid0 = Ok e
      /\ encodable_entry e = true
      /\ ((exists sid, sid0 = VStr sid /\ qr = true /\ resp = Created sid
                       /\ st' = save_qr sid (insert_one e st))
          \/ (exists sid, sid0 = VStr sid /\ qr = false
                          /\ resp = InternalServerError OSError
                          /\ st' = insert_one e st)
          \/ ((forall sid, sid0 <> VStr sid)
              /\ resp = InternalServerError TypeError
              /\ st' = insert_one e st)).
Proof.
  unfold shorten.
  destruct (String.eqb (method req) "GET").
  { intros [= <- <-]. left. split; [reflexivity | tauto]. }
  destruct (truthy (field req "long_url")); simpl.
  2:{ intros [= <- <-]. left. split; [reflexivity | tauto]. }
  destruct (truthy (field req "custom_id")
            && negb (encodable (field req "custom_id"))).
  { intros [= <- <-]. left. split; [reflexivity | tauto]. }
  destruct (allocate _ draws st) as [| |sid0] eqn:Ha.
  { intros [= <- <-]. left. split; [reflexivity | tauto]. }
  { discriminate. }
  fold (entry_for req sid0).
  destruct (entry_for req sid0) as [e|x] eqn:He.
  2:{ intros [= <- <-]. left. split; [reflexivity|].
      do 4 right. exists sid0, x. split; [exact He | reflexivity]. }
  destruct (encodable_entry e) eqn:Henc; simpl.
  2:{ intros [= <- <-]. left. split; [reflexivity | tauto]. }
  intros H. right. exists sid0, e. repeat split; try assumption.
  destruct sid0 as [|b|z|sid].
  4:{ destruct qr; injection H as <- <-.
      - left. exists sid. repeat split.
      - right. left. exists sid. repeat split. }
  all: injection H as <- <-; right; right; repeat split; discriminate.
Qed.

Lemma allocated_origin custom_id draws st sid0 :
  allocate custom_id draws st = Allocated sid0 ->
  find_one sid0 st = None
  /\ ((truthy custom_id = true /\ sid0 = custom_id)
      \/ (truthy custom_id = false /\ exists d, sid0 = VStr d /\ In d draws)).
Proof.
  intros Ha. split; [eapply allocate_fresh; eassumption|].
  unfold allocate in Ha. destruct (truthy custom_id).
  - destruct (find_one custom_id st); [discriminate|].
    injection Ha as <-. left. split; reflexivity.
  - destruct (first_free draws st) as [d|] eqn:Hd; [|discriminate].
    injection Ha as <-. right. split; [reflexivity|]. exists d.
    split; [reflexivity|].
    clear -Hd. induction draws as [|x draws IH]; simpl in *; [discriminate|].
    destruct (find_one (VStr x) st); [right; apply IH; exact Hd|].
    injection Hd as <-. left. reflexivity.
Qed.

(** [shorten] answers whenever a custom identifier is given or one of the
    draws is free. *)
Lemma shorten_returns req draws qr st :
  truthy (field req "custom_id") = true
  \/ (exists d, d ∈ draws /\ find_one (VStr d) st = None) ->
  is_Some (shorten req draws qr st).
Proof.
  intros Hid. unfold shorten.
  destruct (String.eqb (method req) "GET"); [eauto|].
  destruct (truthy (field req "long_url")); simpl; [|eauto].
  destruct (truthy (field req "custom_id")
            && negb (encodable (field req "custom_id"))); [eauto|].
  assert (Ha : allocate (field req "custom_id") draws st <> Running).
  { unfold allocate. destruct Hid as [-> | (d & Hd & Hfree)].
    - destruct (find_one (field req "custom_id") st); discriminate.
    - destruct (truthy (field req "custom_id"));
        [destruct (find_one (field req "custom_id") st); discriminate|].
      destruct (first_free_some _ _ _ Hd Hfree) as [x ->]. discriminate. }
  destruct (allocate _ draws st) as [| |sid0]; [eauto | congruence |].
  destruct (_ ≫= _) as [e|x]; [|eauto].
  destruct (encodable_entry e); simpl; [|eauto].
  destruct sid0; eauto. destruct qr; eauto.
Qed.

(** What [shorten] does to the collection. *)
Lemma shorten_urls req draws qr st resp st' :
  shorten req draws qr st = Some (resp, st') ->
  (urls st' = urls st /\ (forall sid, resp <> Created sid))
  \/ exists e, urls st' = (urls st ++ [e])%list /\ clicks e = 0
               /\ (forall sid, resp = Created sid -> short_id e = VStr sid)
               /\ find_one (short_id e) st = None
               /\ password e = or_none (field req "password")
               /\ expiry_date e = or_none (field req "expiry_date")
               /\ mobile_url e = or_none (field req "mobile_url")
               /\ desktop_url e = or_none (field req "desktop_url")
               /\ (truthy (field req "max_clicks") = false -> max_clicks e = None)
               /\ (truthy (field req "country_redirect") = false ->
                   country_redirect e = None).
Proof.
  intros H. destruct (shorten_cases _ _ _ _ _ _ H)
    as [[-> Hresp] | (sid0 & e & Ha & He & _ & Hend)].
  - left. split; [reflexivity|]. intros sid ->.
    destruct Hresp as [? | [? | [? | [? | (? & ? & _ & ?)]]]]; discriminate.
  - right. exists e.
    destruct (allocated_origin _ _ _ _ Ha) as [Hfresh _].
    destruct (entry_for_ok _ _ _ He)
      as (Hid & _ & Hc & Hpw & Hex & Hmo & Hde & Hmc & Hcr).
    assert (Hu : urls st' = (urls st ++ [e])%list).
    { destruct Hend as [(sid & _ & _ & _ & ->) | [(sid & _ & _ & _ & ->)
                                                 | (_ & _ & ->)]]; reflexivity. }
    split; [exact Hu|]. split; [exact Hc|]. split.
    { intros sid ->. rewrite Hid.
      destruct Hend as [(s1 & -> & _ & [= ->] & _) | [(s1 & _ & _ & ? & _)
                                                     | (_ & ? & _)]];
        [reflexivity | discriminate | discriminate]. }
    split; [rewrite Hid; exact Hfresh|].
    repeat split; try assumption.
    + intros Hf. rewrite Hf in Hmc. exact Hmc.
    + intros Hf. rewrite Hf in Hcr. exact Hcr.
Qed.

(** A successful creation: the record built for the request is stored
    under an identifier that was free, and is the one found from then
    on. *)
Lemma shorten_created req draws qr st sid st' :
  shorten req draws qr st = Some (Created sid, st') ->
  exists e, entry_for req (VStr sid) = Ok e
            /\ find_one (VStr sid) st = None
            /\ st' = save_qr sid (insert_one e st)
            /\ find_one (VStr sid) st' = Some e
            /\ allocate (field req "custom_id") draws st = Allocated (VStr sid).
Proof.
  intros H. destruct (shorten_cases _ _ _ _ _ _ H)
    as [[_ Hresp] | (sid0 & e & Ha & He & _ & Hend)].
  { destruct Hresp as [? | [? | [? | [? | (? & ? & _ & ?)]]]]; discriminate. }
  destruct Hend as [(s1 & -> & _ & [= <-] & ->) | [(s1 & _ & _ & ? & _)
                                                  | (_ & ? & _)]];
    try discriminate.
  destruct (allocated_origin _ _ _ _ Ha) as [Hfresh _].
  exists e. repeat split; try assumption.
  unfold find_one. simpl. apply find_app_fresh; [exact Hfresh|].
  unfold has_id. apply bool_decide_eq_true.
  destruct (entry_for_ok _ _ _ He) as (Hid & _). exact Hid.
Qed.

Lemma step_keeps st o resp st' : step st o resp st' -> keeps st st'.
Proof.
  intros [st0 o0 r st0' Hrun].
  destruct o0 as [req draws qr|sid req now|sid|sid|sid req]; simpl in Hrun.
  - destruct (shorten_urls _ _ _ _ _ _ Hrun) as [[Hu _] | (e & Hu & _)];
      intros i x Hi; rewrite Hu.
    + eauto using grows_refl.
    + exists x. split; [apply lookup_app_l_Some; assumption | apply grows_refl].
  - injection Hrun as Hrun. unfold redirect_short_url in Hrun.
    destruct (find_one (VStr sid) st0); [|injection Hrun as _ <-; apply keeps_refl].
    destruct (is_expired u now) as [[|]|]; try (injection Hrun as _ <-; apply keeps_refl).
    destruct (check_password u req); injection Hrun as _ <-;
      try apply keeps_refl.
    apply keeps_update_one, grows_inc.
  - injection Hrun as Hrun. unfold get_qr in Hrun.
    destruct (bool_decide _); injection Hrun as _ <-; apply keeps_refl.
  - injection Hrun as Hrun. unfold stats in Hrun.
    destruct (find_one _ _); injection Hrun as _ <-; apply keeps_refl.
  - injection Hrun as Hrun. unfold update_url in Hrun.
    destruct (find_one _ _); [|injection Hrun as _ <-; apply keeps_refl].
    destruct (is_json req); simpl in Hrun; [|injection Hrun as _ <-; apply keeps_refl].
    destruct (collect_updates (json req)) as [f|x];
      [|injection Hrun as _ <-; apply keeps_refl].
    destruct (no_updates f); [injection Hrun as _ <-; apply keeps_refl|].
    destruct (encodable_updates f); simpl in Hrun; injection Hrun as _ <-;
      [|apply keeps_refl].
    apply keeps_update_one. intros e. apply grows_set.
Qed.

Lemma reaches_keeps st ops st' : reaches st ops st' -> keeps st st'.
Proof.
  induction 1 as [st | st o r st1 os st2 Hstep _ IH]; [apply keeps_refl|].
  eapply keeps_trans; [eapply step_keeps; eassumption | exact IH].
Qed.

(** A visit either redirects and bumps the counter of the record it
    found, or leaves the store as it was. *)
Lemma redirect_effect sid req now st :
  match redirect_short_url sid req now st with
  | (Redirect _, st') =>
      exists i e, urls st !! i = Some e /\ short_id e = VStr sid
                  /\ find_one (VStr sid) st = Some e
                  /\ st' = mk_store (<[i := inc_clicks e]> (urls st)) (qrcodes st)
  | (_, st') => st' = st
  end.
Proof.
  unfold redirect_short_url.
  destruct (find_one (VStr sid) st) as [e|] eqn:Hf; [|reflexivity].
  destruct (is_expired e now) as [[|]|]; try reflexivity.
  destruct (check_password e req); try reflexivity.
  destruct (update_first_insert (VStr sid) inc_clicks (urls st) e Hf)
    as (i & Hi & Hid & Hu).
  exists i, e. unfold update_one. rewrite Hu. repeat split; try assumption.
  unfold has_id in Hid. apply bool_decide_eq_true in Hid. exact Hid.
Qed.

End Clicks.

(** C4: the counter starts at 0, never goes down, and is bumped once by a
    visit that redirects and not at all by any other visit.  Creation
    answers once a custom identifier is given or a drawn one is free; it adds
    at most one record, with [clicks = 0], and touches no other; along any
    run of the service every record stays at its place with the same
    identifier and a counter at least as large; a visit answered with a
    redirect adds exactly 1 to the counter of the record it found and
    changes nothing else; a visit answered not-found, expired, password
    form or incorrect password leaves the store as it was. *)
Theorem clicks_counter :
  (forall req draws qr st,
      truthy (field req "custom_id") = true
      \/ (exists d, d ∈ draws /\ find_one (VStr d) st = None) ->
      is_Some (shorten req draws qr st))
  /\ (forall req draws qr st resp st',
      shorten req draws qr st = Some (resp, st') ->
      urls st' = urls st
      \/ exists e, urls st' = (urls st ++ [e])%list /\ clicks e = 0)
  /\ (forall st ops st',
        reaches st ops st' ->
        forall i e, urls st !! i = Some e ->
                    exists e', urls st' !! i = Some e'
                               /\ short_id e' = short_id e
                               /\ clicks e <= clicks e')
  /\ (forall sid req now st resp st',
        redirect_short_url sid req now st = (resp, st') ->
        (forall t, resp = Redirect t ->
                   exists i e,
                     urls st !! i = Some e /\ short_id e = VStr sid
                     /\ find_one (VStr sid) st = Some e
                     /\ st' = mk_store (<[i := inc_clicks e]> (urls st))
                                       (qrcodes st)
                     /\ clicks (inc_clicks e) = clicks e + 1)
        /\ (resp = NotFound \/ resp = Expired \/ resp = PasswordForm
            \/ resp = IncorrectPassword -> st' = st)).
Proof.
  split; [exact shorten_returns | split; [|split]].
  - intros req draws qr st resp st' H.
    destruct (shorten_urls _ _ _ _ _ _ H) as [[Hu _] | (e & Hu & Hc & _)]; eauto.
  - intros st ops st' Hr i e Hi.
    destruct (reaches_keeps _ _ _ Hr i e Hi) as (e' & Hi' & Hid & Hc). eauto.
  - intros sid req now st resp st' H.
    pose proof (redirect_effect sid req now st) as He. rewrite H in He.
    split.
    + intros t ->. destruct He as (i & e & Hi & Hid & Hf & ->).
      exists i, e. repeat split; assumption.
    + intros [-> | [-> | [-> | ->]]]; exact He.
Qed.

Lemma clicks_counter_witness :
  exists i e,
    urls locked_store !! i = Some e /\ short_id e = VStr "vault"
    /\ find_one (VStr "vault") locked_store = Some e
    /\ (redirect_short_url "vault" (post_form {["password" := "secret"]}) now0
          locked_store).2
       = mk_store (<[i := inc_clicks e]> (urls locked_store))
                  (qrcodes locked_store)
    /\ clicks (inc_clicks e) = clicks e + 1.
Proof.
  destruct clicks_counter as (_ & _ & _ & Hvisit).
  destruct (Hvisit "vault" (post_form {["password" := "secret"]}) now0
              locked_store _ _ (surjective_pairing _)) as [Hbump _].
  apply (Hbump (VStr "https://example.com")). vm_compute. reflexivity.
Defined.

(** ** Country override without the header *)

Section NoHeader.

(** Without the header the country code is the empty string; when the
    mapping has no such key the device and [long_url] logic decides. *)
Lemma no_header_device_logic e req :
  x_country req = None ->
  (forall d, country_redirect e = Some d -> d !! "" = None) ->
  resolve_target e req
  = if is_mobile (ua req) && truthy (mobile_url e) then mobile_url e
    else if is_pc (ua req) && truthy (desktop_url e) then desktop_url e
    else long_url e.
Proof.
  intros Hx Hkey. unfold resolve_target.
  rewrite get_country_redirect_lookup, Hx. simpl.
  change (upper "") with "".
  destruct (country_redirect e) as [d|]; simpl; [|reflexivity].
  rewrite (Hkey d eq_refl). reflexivity.
Qed.

End NoHeader.

(** C5: evaluation at the failing input.  A record created with the pair
    [=https://evil.example] has the empty string as a country code; a
    visit that sends no [X-Country] header is then given that country
    override instead of [long_url]. *)
Theorem blank_code_overrides_without_header :
  reply (Shorten blank_code_create [] true) empty_store = Some (Created "promo")
  /\ (country_redirect <$> find_one (VStr "promo") blank_code_store)
     = Some (Some {["" := "https://evil.example"]})
  /\ x_country (get desktop None) = None
  /\ (redirect_short_url "promo" (get desktop None) now0 blank_code_store).1
     = Redirect (VStr "https://evil.example").
Proof. vm_compute. repeat split; reflexivity. Qed.

(** ** The update operation *)

Section Update.

Lemma update_first_lookup sid f l i e :
  l !! i = Some e ->
  update_first sid f l !! i = Some e \/ update_first sid f l !! i = Some (f e).
Proof.
  revert i. induction l as [|x l IH]; intros i Hi; [discriminate|].
  simpl. destruct (has_id sid x).
  - destruct i; simpl in *; [injection Hi as ->; right; reflexivity | left; assumption].
  - destruct i; simpl in *; [left; assumption | apply IH; assumption].
Qed.

Lemma find_update_first sid f l :
  (forall e, short_id (f e) = short_id e) ->
  find (has_id sid) (update_first sid f l) = f <$> find (has_id sid) l.
Proof.
  intros Hf. induction l as [|x l IH]; simpl; [reflexivity|].
  destruct (has_id sid x) eqn:Hx; simpl.
  - unfold has_id in *. rewrite Hf, Hx. reflexivity.
  - rewrite Hx. exact IH.
Qed.

Lemma update_first_idem sid f l :
  (forall e, short_id (f e) = short_id e) ->
  (forall e, f (f e) = f e) ->
  update_first sid f (update_first sid f l) = update_first sid f l.
Proof.
  intros Hid Hf. induction l as [|x l IH]; simpl; [reflexivity|].
  destruct (has_id sid x) eqn:Hx; simpl.
  - unfold has_id in *. rewrite Hid, Hx, Hf. reflexivity.
  - rewrite Hx, IH. reflexivity.
Qed.

Lemma set_fields_idem f e : set_fields f (set_fields f e) = set_fields f e.
Proof.
  unfold set_fields; simpl.
  destruct (u_password f), (u_expiry_date f), (u_max_clicks f),
    (u_mobile_url f), (u_desktop_url f), (u_country_redirect f); reflexivity.
Qed.

(** The store after [update_url], by cases. *)
Lemma update_url_store sid req st :
  (update_url sid req st).2 = st
  \/ exists f, is_json req = true
               /\ collect_updates (json req) = Ok f
               /\ (no_updates f = false /\ encodable_updates f = true)
               /\ is_Some (find_one (VStr sid) st)
               /\ update_url sid req st
                  = (Updated f, update_one (VStr sid) (set_fields f) st).
Proof.
  unfold update_url. destruct (find_one (VStr sid) st) eqn:Hf; [|left; reflexivity].
  destruct (is_json req); simpl; [|left; reflexivity].
  destruct (collect_updates (json req)) as [f|x]; [|left; reflexivity].
  destruct (no_updates f) eqn:Hn; [left; reflexivity|].
  destruct (encodable_updates f) eqn:Henc; simpl; [|left; reflexivity].
  right. exists f. repeat split; eauto.
Qed.

Lemma update_url_updated sid req st f st' :
  update_url sid req st = (Updated f, st') ->
  exists e, find_one (VStr sid) st = Some e
            /\ is_json req = true
            /\ collect_updates (json req) = Ok f
            /\ no_updates f = false
            /\ st' = update_one (VStr sid) (set_fields f) st.
Proof.
  unfold update_url. destruct (find_one (VStr sid) st) as [e|]; [|discriminate].
  destruct (is_json req); simpl; [|discriminate].
  destruct (collect_updates (json req)) as [g|]; [|discriminate].
  destruct (no_updates g) eqn:Hn; [discriminate|].
  destruct (encodable_updates g); simpl; [|discriminate].
  intros [= <- <-]. exists e. repeat split. assumption.
Qed.

Lemma no_keys_no_updates data :
  (forall name, name ∈ update_keys -> data !! name = None) ->
  collect_updates data = Ok (mk_updates None None None None None None).
Proof.
  intros H. unfold collect_updates, plain_update, max_clicks_update,
    country_redirect_update.
  rewrite !H by (unfold update_keys; set_solver). reflexivity.
Qed.

End Update.

(** C7: the update operation is idempotent, and a payload with none of
    the six fields changes nothing.  Applying one payload to the same
    identifier twice leaves the store the first application left; when
    the payload has none of the recognised keys the store, counters
    included, is the one before the request and the answer is not an
    update. *)
Theorem update_idempotent (sid : string) (req : request) (st : store) :
  (update_url sid req (update_url sid req st).2).2 = (update_url sid req st).2
  /\ ((forall name, name ∈ update_keys -> json req !! name = None) ->
      (update_url sid req st).2 = st
      /\ forall f, (update_url sid req st).1 <> Updated f).
Proof.
  split.
  - destruct (update_url_store sid req st)
      as [Hsame | (f & Hj & Hc & [Hn Henc] & [e He] & Hu)].
    + rewrite Hsame. exact Hsame.
    + rewrite Hu. simpl.
      unfold update_url at 1. unfold find_one at 1. simpl.
      rewrite find_update_first by reflexivity.
      fold (find_one (VStr sid) st). rewrite He. simpl.
      rewrite Hj, Hc, Hn, Henc. simpl.
      unfold update_one. simpl. f_equal.
      apply update_first_idem; [reflexivity | apply set_fields_idem].
  - intros Hnone. unfold update_url.
    destruct (find_one (VStr sid) st); [|split; [reflexivity | discriminate]].
    destruct (is_json req); simpl; [|split; [reflexivity | discriminate]].
    rewrite (no_keys_no_updates _ Hnone). simpl. split; [reflexivity | discriminate].
Qed.

Lemma update_idempotent_witness :
  (update_url "vault" set_long_url locked_store).2 = locked_store
  /\ forall f, (update_url "vault" set_long_url locked_store).1 <> Updated f.
Proof.
  apply (proj2 (update_idempotent "vault" set_long_url locked_store)).
  intros name Hname. unfold update_keys in Hname.
  repeat (apply elem_of_cons in Hname as [-> | Hname]; [vm_compute; reflexivity|]).
  apply elem_of_nil in Hname. destruct Hname.
Defined.

Section UpdateScope.

(** [update_url] leaves every record at its place, with the identifier,
    the target and the counter it had. *)
Lemma update_url_keeps_long_url sid req st i e :
  urls st !! i = Some e ->
  exists e', urls (update_url sid req st).2 !! i = Some e'
             /\ long_url e' = long_url e
             /\ short_id e' = short_id e
             /\ clicks e' = clicks e.
Proof.
  intros Hi.
  destruct (update_url_store sid req st) as [-> | (f & _ & _ & _ & _ & ->)].
  - eauto.
  - simpl.
    destruct (update_first_lookup (VStr sid) (set_fields f) _ _ _ Hi) as [-> | ->];
      eauto.
Qed.

Lemma find_one_after_update sid req st :
  find_one (VStr sid) (update_url sid req st).2 = find_one (VStr sid) st
  \/ exists f, find_one (VStr sid) (update_url sid req st).2
               = set_fields f <$> find_one (VStr sid) st.
Proof.
  destruct (update_url_store sid req st) as [-> | (f & _ & _ & _ & _ & ->)].
  - left. reflexivity.
  - right. exists f. unfold find_one. simpl.
    apply find_update_first. reflexivity.
Qed.

End UpdateScope.

(** C8 (amended): [long_url] is not mutable through the update operation.
    Whatever the payload holds, a [long_url] member included, every
    stored record keeps its [long_url] (and its [short_id] and [clicks]);
    a payload that holds a [long_url] member and none of the six
    recognised fields is answered "No updates provided". *)
Theorem long_url_immutable (sid : string) (req : request) (st : store)
    (i : nat) (e : url_entry) (Hi : urls st !! i = Some e) :
  (exists e', urls (update_url sid req st).2 !! i = Some e'
              /\ long_url e' = long_url e
              /\ short_id e' = short_id e
              /\ clicks e' = clicks e)
  /\ (is_json req = true ->
      is_Some (find_one (VStr sid) st) ->
      (forall name, name ∈ update_keys -> json req !! name = None) ->
      update_url sid req st = (NoUpdates, st)).
Proof.
  split; [apply update_url_keeps_long_url; assumption|].
  intros Hj [x Hx] Hnone. unfold update_url.
  rewrite Hx, Hj, (no_keys_no_updates _ Hnone). reflexivity.
Qed.

Lemma long_url_immutable_witness :
  exists e', urls (update_url "vault" set_long_url locked_store).2 !! 0%nat = Some e'
             /\ long_url e' = long_url locked_entry
             /\ short_id e' = short_id locked_entry
             /\ clicks e' = clicks locked_entry.
Proof.
  exact (proj1 (long_url_immutable "vault" set_long_url locked_store 0
                  locked_entry eq_refl)).
Defined.

(** C8, as stated, fails: no update changes the stored [long_url]. *)
Lemma long_url_mutable_fails : ~ AsStated.long_url_mutable.
Proof.
  intros (sid & req & st & e & e' & _ & He & He' & Hneq).
  destruct (find_one_after_update sid req st) as [H | [f H]];
    rewrite H, He in He'; injection He' as <-; apply Hneq; reflexivity.
Qed.

(** C9 (amended): when the payload of an update to a stored identifier
    carries a [max_clicks] that is neither empty nor null and that
    [int] rejects (an ASCII string that is not blanks, an optional sign
    and at most 4300 decimal digits with single underscores between
    them, blanks), the handler ends in an unhandled [ValueError], which
    is answered 500, not 400; the store is left as it was. *)
Theorem bad_max_clicks_raises (sid : string) (req : request) (st : store)
    (v : pyval)
    (Hfound : is_Some (find_one (VStr sid) st))
    (Hjson : is_json req = true)
    (Hv : json req !! "max_clicks" = Some v)
    (Hset : clears v = false)
    (Hascii : ascii_val v = true)
    (Hbad : raises (py_int v)) :
  update_url sid req st = (InternalServerError ValueError, st)
  /\ status_code (update_url sid req st).1 = 500.
Proof.
  assert (Hu : update_url sid req st = (InternalServerError ValueError, st)).
  { destruct Hfound as [e He]. unfold update_url. rewrite He, Hjson. simpl.
    unfold collect_updates, max_clicks_update. rewrite Hv, Hset.
    destruct Hbad as [x Hx].
    destruct v as [|b|z|s]; simpl in *; try discriminate.
    destruct (int_of_chars (chars s)); [discriminate|]. reflexivity. }
  rewrite Hu. split; reflexivity.
Qed.

Lemma bad_max_clicks_raises_witness :
  update_url "vault" bad_max_clicks locked_store
  = (InternalServerError ValueError, locked_store)
  /\ status_code (update_url "vault" bad_max_clicks locked_store).1 = 500.
Proof.
  apply (bad_max_clicks_raises "vault" bad_max_clicks locked_store (VStr "abc")).
  - exists locked_entry. reflexivity.
  - reflexivity.
  - reflexivity.
  - reflexivity.
  - reflexivity.
  - exists ValueError. reflexivity.
Defined.

(** C9, as stated, fails: the answer to a [max_clicks] of ["abc"] is a
    500, not a 400. *)
Lemma bad_max_clicks_is_400_fails : ~ AsStated.bad_max_clicks_is_400.
Proof.
  intros H.
  destruct (H "vault" bad_max_clicks locked_store (VStr "abc")) as [H400 _].
  - exists locked_entry. reflexivity.
  - reflexivity.
  - reflexivity.
  - reflexivity.
  - exists ValueError. reflexivity.
  - vm_compute in H400. discriminate.
Qed.

(** ** Expiry dates are read, not checked *)

Section ExpiryFormat.

Lemma is_expired_returns_iff e now :
  (exists b, is_expired e now = Ok b)
  <-> (truthy (expiry_date e) = false
       \/ exists s dt, expiry_date e = VStr s /\ strptime s = Some dt).
Proof.
  split.
  - intros [b Hb]. unfold is_expired in Hb.
    destruct (truthy (expiry_date e)) eqn:Ht; [right | left; reflexivity].
    destruct (expiry_date e) as [|x|z|s]; try discriminate.
    destruct (strptime s) as [dt|] eqn:Hp; [eauto | discriminate].
  - intros [Hnone | (s & dt & Hs & Hp)].
    + rewrite is_expired_quota_only by (left; assumption). eauto.
    + destruct (dt_ltb dt now) eqn:Hlt.
      * exists true. eapply is_expired_past; eassumption.
      * rewrite is_expired_quota_only by (right; eauto). eauto.
Qed.

Lemma collect_updates_plain data f :
  collect_updates data = Ok f ->
  u_password f = plain_update data "password"
  /\ u_expiry_date f = plain_update data "expiry_date"
  /\ u_mobile_url f = plain_update data "mobile_url"
  /\ u_desktop_url f = plain_update data "desktop_url".
Proof.
  unfold collect_updates.
  destruct (max_clicks_update data); simpl; [|discriminate].
  destruct (country_redirect_update data); simpl; [|discriminate].
  intros [= <-]. repeat split.
Qed.

End ExpiryFormat.

(** C6 (amended): the write operations do not look at the format of
    [expiry_date].  Creation stores a supplied non-empty value as it is
    (and an empty one as [None]) in the record that later requests find;
    an update stores a supplied value other than the empty string and
    null as it is.  On ASCII text, [is_expired] returns exactly on the
    records whose [expiry_date] is falsy ([None], or a value such as [0]
    or [False] that an update stored as it is) or a string in the fixed
    format; on a record whose [expiry_date] is truthy and not a string in
    the format it raises, at read time. *)
Theorem expiry_format_unchecked :
  (forall e now,
      ascii_val (expiry_date e) = true ->
      ((exists b, is_expired e now = Ok b)
       <-> (truthy (expiry_date e) = false
            \/ exists s dt, expiry_date e = VStr s /\ strptime s = Some dt))
      /\ (truthy (expiry_date e) = true ->
          (forall s, expiry_date e = VStr s -> strptime s = None) ->
          exists x, is_expired e now = Raise x))
  /\ (forall req draws qr st sid st',
        shorten req draws qr st = Some (Created sid, st') ->
        exists e, find_one (VStr sid) st' = Some e
                  /\ urls st' = (urls st ++ [e])%list
                  /\ (truthy (field req "expiry_date") = true ->
                      expiry_date e = field req "expiry_date")
                  /\ (truthy (field req "expiry_date") = false ->
                      expiry_date e = VNone))
  /\ (forall sid req st f st' v e',
        update_url sid req st = (Updated f, st') ->
        json req !! "expiry_date" = Some v ->
        clears v = false ->
        find_one (VStr sid) st' = Some e' ->
        expiry_date e' = v).
Proof.
  split; [|split].
  - intros e now _. split; [apply is_expired_returns_iff|].
    intros Ht Hbad. unfold is_expired. rewrite Ht.
    destruct (expiry_date e) as [|b|z|s]; simpl; eauto.
    rewrite (Hbad s eq_refl). simpl. eauto.
  - intros req draws qr st sid st' H.
    destruct (shorten_created _ _ _ _ _ _ H) as (e & He & _ & -> & Hf & _).
    exists e. split; [exact Hf|]. split; [reflexivity|].
    destruct (entry_for_ok _ _ _ He) as (_ & _ & _ & _ & -> & _).
    unfold or_none. split; intros ->; reflexivity.
  - intros sid req st f st' v e' Hu Hv Hset He'.
    destruct (update_url_updated _ _ _ _ _ Hu) as (e & He & _ & Hc & _ & ->).
    unfold find_one in He'. simpl in He'.
    rewrite find_update_first in He' by reflexivity.
    fold (find_one (VStr sid) st) in He'. rewrite He in He'.
    injection He' as <-. simpl.
    destruct (collect_updates_plain _ _ Hc) as (_ & -> & _).
    unfold plain_update. rewrite Hv, Hset. reflexivity.
Qed.

Lemma expiry_format_unchecked_witness :
  exists e, find_one (VStr "soon") bad_date_store = Some e
            /\ expiry_date e = VStr "tomorrow"
            /\ exists x, is_expired e now0 = Raise x.
Proof.
  destruct expiry_format_unchecked as (Hread & Hcreate & _).
  destruct (Hcreate bad_date_create [] true empty_store "soon" bad_date_store)
    as (e & Hfound & _ & Hstored & _); [vm_compute; reflexivity|].
  assert (Hdate : expiry_date e = VStr "tomorrow")
    by (rewrite Hstored; vm_compute; reflexivity).
  exists e. split; [exact Hfound|]. split; [exact Hdate|].
  apply (Hread e now0).
  - rewrite Hdate. vm_compute. reflexivity.
  - rewrite Hdate. reflexivity.
  - rewrite Hdate. intros s [= <-]. vm_compute. reflexivity.
Defined.

(** C6, as stated, fails: creation accepts the expiry date [tomorrow],
    and [is_expired] raises on the record it stored. *)
Lemma is_expired_never_raises_fails : ~ AsStated.is_expired_never_raises.
Proof.
  intros H.
  destruct (H [Shorten bad_date_create [] true] bad_date_store bad_date_entry now0)
    as [b Hb].
  - eapply reaches_cons; [|apply reaches_nil].
    apply (step_run _ _ (Created "soon")). vm_compute. reflexivity.
  - assert (urls bad_date_store = [bad_date_entry]) as ->
      by (vm_compute; reflexivity).
    apply list_elem_of_here.
  - vm_compute in Hb. discriminate.
Qed.

(** ** Empty form inputs *)

Section EmptyInputs.

Lemma or_none_empty v : v = VStr "" -> or_none v = VNone.
Proof. intros ->. reflexivity. Qed.

Lemma resolve_target_no_mobile e req :
  mobile_url e = VNone ->
  resolve_target e req
  = resolve_target e (with_agent (mk_ua false (is_pc (ua req))) req).
Proof.
  intros Hm. unfold resolve_target. simpl. rewrite Hm. simpl.
  rewrite andb_false_r. reflexivity.
Qed.

Lemma resolve_target_no_desktop e req :
  desktop_url e = VNone ->
  resolve_target e req
  = resolve_target e (with_agent (mk_ua (is_mobile (ua req)) false) req).
Proof.
  intros Hd. unfold resolve_target. simpl. rewrite Hd. simpl.
  rewrite andb_false_r. reflexivity.
Qed.

End EmptyInputs.

(** C10: an optional field supplied as the empty string at creation is
    stored as [None].  The record created is the one later requests find;
    its [password], [expiry_date], [mobile_url], [desktop_url],
    [max_clicks] and [country_redirect] are [None] when the matching
    input was empty.  A record whose [password] is [None] is never
    answered with the password form or with "incorrect password": unless
    it is expired, every visit of it, whatever the method, is answered
    with the redirect to its resolved target and counted.  With
    [expiry_date] [None] the expiry check returns, and the same at every
    time; with [mobile_url] (or [desktop_url]) [None] the target is the
    one a non-mobile (non-desktop) agent would get.  A record created
    with every optional input empty redirects every visit to its
    [long_url]. *)
Theorem empty_input_is_unset :
  (forall req draws qr st sid st',
      shorten req draws qr st = Some (Created sid, st') ->
      exists e,
        urls st' = (urls st ++ [e])%list
        /\ find_one (VStr sid) st' = Some e
        /\ (field req "password" = VStr "" -> password e = VNone)
        /\ (field req "expiry_date" = VStr "" -> expiry_date e = VNone)
        /\ (field req "mobile_url" = VStr "" -> mobile_url e = VNone)
        /\ (field req "desktop_url" = VStr "" -> desktop_url e = VNone)
        /\ (field req "max_clicks" = VStr "" -> max_clicks e = None)
        /\ (field req "country_redirect" = VStr "" -> country_redirect e = None))
  /\ (forall e sid req now st,
        find_one (VStr sid) st = Some e ->
        password e = VNone ->
        ((redirect_short_url sid req now st).1 <> PasswordForm
         /\ (redirect_short_url sid req now st).1 <> IncorrectPassword)
        /\ (is_expired e now = Ok false ->
            redirect_short_url sid req now st
            = (Redirect (resolve_target e req),
               update_one (VStr sid) inc_clicks st)))
  /\ (forall e now,
        expiry_date e = VNone ->
        (exists b, is_expired e now = Ok b)
        /\ forall now', is_expired e now' = is_expired e now)
  /\ (forall e req,
        mobile_url e = VNone ->
        resolve_target e req
        = resolve_target e (with_agent (mk_ua false (is_pc (ua req))) req))
  /\ (forall e req,
        desktop_url e = VNone ->
        resolve_target e req
        = resolve_target e (with_agent (mk_ua (is_mobile (ua req)) false) req))
  /\ (forall req draws qr st sid st' visit now,
        shorten req draws qr st = Some (Created sid, st') ->
        field req "password" = VStr "" ->
        field req "expiry_date" = VStr "" ->
        field req "max_clicks" = VStr "" ->
        field req "mobile_url" = VStr "" ->
        field req "desktop_url" = VStr "" ->
        field req "country_redirect" = VStr "" ->
        redirect_short_url sid visit now st'
        = (Redirect (field req "long_url"),
           update_one (VStr sid) inc_clicks st')).
Proof.
  assert (Hserve : forall e sid req now st,
             find_one (VStr sid) st = Some e ->
             password e = VNone ->
             is_expired e now = Ok false ->
             redirect_short_url sid req now st
             = (Redirect (resolve_target e req),
                update_one (VStr sid) inc_clicks st)).
  { intros e sid req now st Hf Hpw Hlive.
    rewrite (redirect_by_gate _ _ _ _ _ Hf Hlive).
    unfold check_password. rewrite Hpw. reflexivity. }
  split; [|split; [|split; [|split; [|split]]]].
  - intros req draws qr st sid st' H.
    destruct (shorten_urls _ _ _ _ _ _ H)
      as [[_ Hno] | (e & Hu & _ & Hid & Hfresh & Hpw & Hex & Hmo & Hde & Hmc & Hcr)].
    { destruct (Hno sid). reflexivity. }
    exists e. split; [exact Hu|]. split.
    { unfold find_one. rewrite Hu. rewrite (Hid sid eq_refl) in Hfresh.
      apply find_app_fresh; [exact Hfresh|].
      unfold has_id. apply bool_decide_eq_true. apply Hid. reflexivity. }
    repeat split.
    + intros Hv. rewrite Hpw. apply or_none_empty, Hv.
    + intros Hv. rewrite Hex. apply or_none_empty, Hv.
    + intros Hv. rewrite Hmo. apply or_none_empty, Hv.
    + intros Hv. rewrite Hde. apply or_none_empty, Hv.
    + intros Hv. apply Hmc. rewrite Hv. reflexivity.
    + intros Hv. apply Hcr. rewrite Hv. reflexivity.
  - intros e sid req now st Hf Hpw. split; [|apply Hserve; assumption].
    unfold redirect_short_url. rewrite Hf.
    destruct (is_expired e now) as [[|]|]; simpl; try (split; discriminate).
    unfold check_password. rewrite Hpw. simpl. split; discriminate.
  - intros e now He.
    assert (Hq : forall t, is_expired e t =
                 Ok (match max_clicks e with
                     | Some mc => negb (mc =? 0) && (mc <=? clicks e)
                     | None => false
                     end)).
    { intros t. apply is_expired_quota_only. left. rewrite He. reflexivity. }
    split; [rewrite Hq; eauto | intros now'; rewrite !Hq; reflexivity].
  - exact resolve_target_no_mobile.
  - exact resolve_target_no_desktop.
  - intros req draws qr st sid st' visit now H Hpw Hex Hmc Hmo Hde Hcr.
    destruct (shorten_created _ _ _ _ _ _ H) as (e & He & _ & _ & Hf & _).
    destruct (entry_for_ok _ _ _ He)
      as (_ & Hurl & _ & Epw & Eex & Emo & Ede & Emc & Ecr).
    rewrite Hpw in Epw. rewrite Hex in Eex. rewrite Hmo in Emo.
    rewrite Hde in Ede. rewrite Hmc in Emc. rewrite Hcr in Ecr.
    simpl in *.
    assert (Hlive : is_expired e now = Ok false).
    { rewrite is_expired_quota_only by (left; rewrite Eex; reflexivity).
      rewrite Emc. reflexivity. }
    rewrite (Hserve e sid visit now st' Hf Epw Hlive). f_equal. f_equal.
    unfold resolve_target, get_country_redirect.
    rewrite Emo, Ede, Ecr, Hurl. simpl. rewrite !andb_false_r. reflexivity.
Qed.

Lemma empty_input_is_unset_witness :
  (exists e,
      urls blank_form_store = (urls empty_store ++ [e])%list
      /\ find_one (VStr "plain") blank_form_store = Some e
      /\ password e = VNone /\ expiry_date e = VNone)
  /\ redirect_short_url "plain" (get phone None) now0 blank_form_store
     = (Redirect (field blank_form_create "long_url"),
        update_one (VStr "plain") inc_clicks blank_form_store).
Proof.
  destruct empty_input_is_unset as (Hcreate & _ & _ & _ & _ & Hserve).
  assert (Hrun : shorten blank_form_create [] true empty_store
                 = Some (Created "plain", blank_form_store))
    by (vm_compute; reflexivity).
  destruct (Hcreate _ _ _ _ _ _ Hrun) as (e & Hu & Hf & Hpw & Hex & _).
  split.
  - exists e. repeat split; try assumption.
    + apply Hpw. vm_compute. reflexivity.
    + apply Hex. vm_compute. reflexivity.
  - apply (Hserve _ _ _ _ _ _ (get phone None) now0 Hrun);
      vm_compute; reflexivity.
Defined.

(** ** The end-to-end scenarios, run on the model *)

Section Scenarios.

Example scenario_max_clicks :
  reply (Visit "two" (get desktop None) now0) (capped_store 0)
  = Some (Redirect (VStr "https://example.com"))
  /\ reply (Visit "two" (get desktop None) now0) (capped_store 1)
     = Some (Redirect (VStr "https://example.com"))
  /\ (clicks <$> find_one (VStr "two") (capped_store 2)) = Some 2
  /\ reply (Visit "two" (get desktop None) now0) (capped_store 2)
     = Some Expired.
Proof. vm_compute. repeat split; reflexivity. Qed.

Example scenario_country :
  reply (Visit "geo" (get desktop (Some "in")) now0) geo_store
  = Some (Redirect (VStr "https://in.x.com"))
  /\ reply (Visit "geo" (get desktop (Some "FR")) now0) geo_store
     = Some (Redirect (VStr "https://x.com"))
  /\ reply (Visit "geo" (get desktop None) now0) geo_store
     = Some (Redirect (VStr "https://x.com")).
Proof. vm_compute. repeat split; reflexivity. Qed.

Example scenario_password :
  reply (Visit "vault" (get desktop None) now0) locked_store
  = Some PasswordForm
  /\ reply (Visit "vault" (post_form {["password" := "wrong"]}) now0)
           locked_store
     = Some IncorrectPassword
  /\ run (Visit "vault" (post_form {["password" := "secret"]}) now0)
         locked_store
     = Some (Redirect (VStr "https://example.com"),
             mk_store [inc_clicks locked_entry] ∅).
Proof. vm_compute. repeat split; reflexivity. Qed.

Example scenario_custom_id :
  reply (Shorten geo_create [] true) geo_store = Some IdTaken
  /\ reply (Shorten (post_form {["long_url" := "https://y.com"]})
                    ["geo"; "aB3dE9"] true) geo_store
     = Some (Created "aB3dE9").
Proof. vm_compute. repeat split; reflexivity. Qed.

(** The record with an empty URL for [US] is the one creation stores for
    the input [US=]. *)
Example blank_country_reachable :
  run (Shorten blank_country_create [] true) empty_store
  = Some (Created "geo", mk_store [blank_country_entry] {["geo"]}).
Proof. vm_compute. reflexivity. Qed.

Example strptime_samples :
  strptime "2024-02-29 10:20:59" = Some (mk_datetime 2024 2 29 10 20 59 0)
  /\ strptime "2024-1-5 1:2:3" = Some (mk_datetime 2024 1 5 1 2 3 0)
  /\ strptime "2023-02-29 10:20:59" = None
  /\ strptime "2024-02-29 10:20:60" = None
  /\ strptime "2024-02-29" = None
  /\ strptime "tomorrow" = None.
Proof. repeat split; reflexivity. Qed.

Example int_samples :
  py_int (VStr " 1_000 ") = Ok 1000
  /\ py_int (VStr "-12") = Ok (-12)
  /\ py_int (VStr "1__0") = Raise ValueError
  /\ py_int (VStr "abc") = Raise ValueError
  /\ py_int (VStr "") = Raise ValueError.
Proof. repeat split; reflexivity. Qed.

(** [int] does not skip the separators 28 to 31, which [strip] removes. *)
Example int_blank_samples :
  py_int (VStr (String (ascii_of_nat 28) "5")) = Raise ValueError
  /\ strip (String (ascii_of_nat 28) "5") = "5"
  /\ py_int (VStr (String (ascii_of_nat 9) "5")) = Ok 5.
Proof. repeat split; reflexivity. Qed.

End Scenarios.

(** ** Generated identifiers *)

Section GeneratedIds.

Lemma length_str l : String.length (str l) = length l.
Proof. induction l as [|c l IH]; simpl; [reflexivity | rewrite IH; reflexivity]. Qed.

Lemma chars_str l : chars (str l) = l.
Proof. apply list_ascii_of_string_of_list_ascii. Qed.

Lemma str_chars s : str (chars s) = s.
Proof. apply string_of_list_ascii_of_string. Qed.

Lemma alphabet_alnum i :
  (i < 62)%nat -> is_alnum (nth i (chars alphabet) "a"%char) = true.
Proof.
  intros Hi.
  do 62 (destruct i as [|i]; [reflexivity|]). lia.
Qed.

Lemma generate_short_id_chars num_chars rand c :
  In c (chars (generate_short_id num_chars rand)) -> is_alnum c = true.
Proof.
  unfold generate_short_id. rewrite chars_str. intros Hc.
  apply in_map_iff in Hc as (j & <- & _).
  apply alphabet_alnum. apply Nat.mod_upper_bound. discriminate.
Qed.

Lemma first_free_in draws st d : first_free draws st = Some d -> In d draws.
Proof.
  induction draws as [|x draws IH]; simpl; [discriminate|].
  destruct (find_one (VStr x) st); [right; apply IH; assumption|].
  intros [= <-]. left. reflexivity.
Qed.

(** The identifier of a successful creation is the custom one or one of
    the draws. *)
Lemma shorten_created_id req draws qr st sid st' :
  shorten req draws qr st = Some (Created sid, st') ->
  (truthy (field req "custom_id") = true /\ field req "custom_id" = VStr sid)
  \/ (truthy (field req "custom_id") = false /\ In sid draws).
Proof.
  intros H. destruct (shorten_created _ _ _ _ _ _ H) as (e & _ & _ & _ & _ & Ha).
  destruct (allocated_origin _ _ _ _ Ha) as [_ [[Ht Hc] | (Hf & d & [= ->] & Hd)]].
  - left. split; [exact Ht | symmetry; exact Hc].
  - right. split; assumption.
Qed.

End GeneratedIds.

(** X1: [generate_short_id(num_chars)] returns [num_chars] characters,
    each an ASCII letter or digit, whatever the random source yields. *)
Theorem generate_short_id_shape (num_chars : nat) (rand : nat -> nat) :
  String.length (generate_short_id num_chars rand) = num_chars
  /\ forall c, has_char c (generate_short_id num_chars rand) ->
               is_alnum c = true.
Proof.
  split.
  - unfold generate_short_id. rewrite length_str, length_map, length_seq.
    reflexivity.
  - intros c. apply generate_short_id_chars.
Qed.

(** X2: a creation that supplies no custom identifier and succeeds
    returns one of the generated identifiers: six letters or digits when
    every draw comes from [generate_short_id()]. *)
Theorem created_id_is_generated (req : request) (draws : list string)
    (qr : bool) (st : store) (sid : string) (st' : store)
    (Hdraws : forall d, In d draws -> exists rand, d = generate_short_id 6 rand)
    (Hcustom : truthy (field req "custom_id") = false)
    (Hcreated : shorten req draws qr st = Some (Created sid, st')) :
  String.length sid = 6%nat
  /\ (forall c, has_char c sid -> is_alnum c = true)
  /\ find_one (VStr sid) st = None.
Proof.
  destruct (shorten_created_id _ _ _ _ _ _ Hcreated) as [[Hc _] | [_ Hin]];
    [congruence|].
  destruct (Hdraws sid Hin) as [rand ->].
  split; [|split].
  - unfold generate_short_id. rewrite length_str, length_map, length_seq.
    reflexivity.
  - intros c. apply generate_short_id_chars.
  - destruct (shorten_urls _ _ _ _ _ _ Hcreated)
      as [[_ Hno] | (e & _ & _ & Hid & Hfresh & _)].
    + destruct (Hno _ eq_refl).
    + rewrite (Hid _ eq_refl) in Hfresh. exact Hfresh.
Qed.

(** ** The country mapping parser *)

Section CountryParser.

Lemma chars_app (a b : string) : chars (a ++ b)%string = (chars a ++ chars b)%list.
Proof. induction a as [|c a IH]; simpl; [reflexivity | rewrite <- IH; reflexivity]. Qed.

Lemma split_chars_nonempty sep l : split_chars sep l <> [].
Proof.
  destruct l as [|c l]; simpl; [discriminate|].
  destruct (Ascii.eqb c sep); [discriminate|].
  destruct (split_chars sep l); discriminate.
Qed.

Lemma split_chars_whole sep l : ~ In sep l -> split_chars sep l = [l].
Proof.
  induction l as [|c l IH]; simpl; [reflexivity|].
  intros Hn. destruct (Ascii.eqb c sep) eqn:Hc.
  - apply Ascii.eqb_eq in Hc. destruct Hn. left. exact Hc.
  - rewrite IH by (intros H; apply Hn; right; exact H). reflexivity.
Qed.

(** Splitting distributes over a separator. *)
Lemma split_chars_sep sep a b :
  split_chars sep (a ++ sep :: b) = (split_chars sep a ++ split_chars sep b)%list.
Proof.
  induction a as [|c a IH]; simpl.
  - rewrite Ascii.eqb_refl. reflexivity.
  - destruct (Ascii.eqb c sep); [rewrite IH; reflexivity|].
    rewrite IH. destruct (split_chars sep a) as [|p ps] eqn:Hs;
      [destruct (split_chars_nonempty _ _ Hs) | reflexivity].
Qed.

Lemma split_once_chars_none sep l : ~ In sep l -> split_once_chars sep l = None.
Proof.
  induction l as [|c l IH]; simpl; [reflexivity|].
  intros Hn. destruct (Ascii.eqb c sep) eqn:Hc.
  - apply Ascii.eqb_eq in Hc. destruct Hn. left. exact Hc.
  - rewrite IH by (intros H; apply Hn; right; exact H). reflexivity.
Qed.

Lemma split_once_chars_first sep a b :
  ~ In sep a -> split_once_chars sep (a ++ sep :: b) = Some (a, b).
Proof.
  induction a as [|c a IH]; simpl; intros Hn.
  - rewrite Ascii.eqb_refl. reflexivity.
  - destruct (Ascii.eqb c sep) eqn:Hc.
    + apply Ascii.eqb_eq in Hc. destruct Hn. left. exact Hc.
    + rewrite IH by (intros H; apply Hn; right; exact H). reflexivity.
Qed.

(** The pieces of a split hold only characters of the text. *)
Lemma split_chars_pieces sep l p c :
  In p (split_chars sep l) -> In c p -> In c l.
Proof.
  revert p. induction l as [|x l IH]; simpl; intros p Hp Hc.
  - destruct Hp as [<- | []]. destruct Hc.
  - destruct (Ascii.eqb x sep).
    + destruct Hp as [<- | Hp]; [destruct Hc | right; eapply IH; eassumption].
    + destruct (split_chars sep l) as [|q qs] eqn:Hs;
        [destruct (split_chars_nonempty _ _ Hs)|].
      destruct Hp as [<- | Hp].
      * destruct Hc as [<- | Hc]; [left; reflexivity|].
        right. apply (IH q); [left; reflexivity | exact Hc].
      * right. apply (IH p); [right; exact Hp | exact Hc].
Qed.

Lemma parse_country_redirect_fold s :
  parse_country_redirect s = foldl parse_step ∅ (split ";" s).
Proof. reflexivity. Qed.

Lemma split_app_sep (a b : string) :
  split ";" (a ++ ";" ++ b)%string = (split ";" a ++ split ";" b)%list.
Proof.
  unfold split. rewrite chars_app. simpl.
  change (chars (String ";" b)) with (";"%char :: chars b).
  rewrite split_chars_sep, map_app. reflexivity.
Qed.

Lemma split_whole (s : string) : ~ has_char ";" s -> split ";" s = [s].
Proof.
  intros Hn. unfold split. rewrite split_chars_whole by exact Hn.
  simpl. rewrite str_chars. reflexivity.
Qed.

Lemma split_once_pair (code url : string) :
  ~ has_char "=" code ->
  split_once "=" (code ++ "=" ++ url)%string = Some (code, url).
Proof.
  intros Hn. unfold split_once. rewrite chars_app. simpl.
  change (chars (String "=" url)) with ("="%char :: chars url).
  rewrite split_once_chars_first by exact Hn.
  rewrite !str_chars. reflexivity.
Qed.

Lemma split_once_none (s : string) :
  ~ has_char "=" s -> split_once "=" s = None.
Proof.
  intros Hn. unfold split_once. rewrite split_once_chars_none by exact Hn.
  reflexivity.
Qed.

Lemma has_char_app c (a b : string) :
  has_char c (a ++ b)%string <-> has_char c a \/ has_char c b.
Proof. unfold has_char. rewrite chars_app. apply in_app_iff. Qed.

(** Appending [;pair] to the text runs one more turn of the loop. *)
Lemma parse_append (rest pair : string) :
  ~ has_char ";" pair ->
  parse_country_redirect (rest ++ ";" ++ pair)
  = parse_step (parse_country_redirect rest) pair.
Proof.
  intros Hn. rewrite !parse_country_redirect_fold, split_app_sep, foldl_app.
  rewrite (split_whole pair Hn). reflexivity.
Qed.

Lemma parse_no_equals_pieces pieces acc :
  (forall p, In p pieces -> ~ has_char "=" p) ->
  foldl parse_step acc pieces = acc.
Proof.
  revert acc. induction pieces as [|p pieces IH]; intros acc Hp; simpl;
    [reflexivity|].
  unfold parse_step at 2. rewrite split_once_none by (apply Hp; left; reflexivity).
  apply IH. intros q Hq. apply Hp. right. exact Hq.
Qed.

End CountryParser.

Section CountryKeys.

Lemma upper_char_idem c : upper_char (upper_char c) = upper_char c.
Proof. destruct c as [[] [] [] [] [] [] [] []]; reflexivity. Qed.

Lemma upper_idem s : upper (upper s) = upper s.
Proof.
  unfold upper. rewrite chars_str, map_map. f_equal.
  apply map_ext. intros c. apply upper_char_idem.
Qed.

Lemma parse_step_keys acc pair :
  (forall k, is_Some (acc !! k) -> upper k = k) ->
  forall k, is_Some (parse_step acc pair !! k) -> upper k = k.
Proof.
  intros Hacc k. unfold parse_step.
  destruct (split_once "=" pair) as [[code url]|]; [|apply Hacc].
  destruct (decide (upper (strip code) = k)) as [<- | Hne].
  - intros _. apply upper_idem.
  - rewrite lookup_insert_ne by exact Hne. apply Hacc.
Qed.

Lemma foldl_parse_keys pieces acc :
  (forall k, is_Some (acc !! k) -> upper k = k) ->
  forall k, is_Some (foldl parse_step acc pieces !! k) -> upper k = k.
Proof.
  revert acc. induction pieces as [|p pieces IH]; intros acc Hacc; simpl;
    [exact Hacc|].
  apply IH. apply parse_step_keys. exact Hacc.
Qed.

Lemma resolve_target_mapped e req d k u :
  country_redirect e = Some d ->
  upper (default "" (x_country req)) = k ->
  d !! k = Some u -> u <> "" ->
  resolve_target e req = VStr u.
Proof.
  intros Hd Hk Hu Hne. unfold resolve_target.
  rewrite get_country_redirect_lookup, Hd, Hk. simpl. rewrite Hu.
  destruct u; [congruence | reflexivity].
Qed.

Lemma resolve_target_unmapped e req :
  (forall d, country_redirect e = Some d ->
             d !! upper (default "" (x_country req)) = None) ->
  resolve_target e req = device_target e req.
Proof.
  intros Hd. unfold resolve_target, device_target.
  rewrite get_country_redirect_lookup.
  destruct (country_redirect e) as [d|]; simpl; [|reflexivity].
  rewrite (Hd d eq_refl). reflexivity.
Qed.

End CountryKeys.

(** X3: a [country_redirect] text without any [=] parses to the empty
    mapping, and a record that holds it is never given a country
    override. *)
Theorem parse_without_equals (s : string) (Hs : ~ has_char "=" s) :
  parse_country_redirect s = ∅
  /\ forall e req, country_redirect e = Some (parse_country_redirect s) ->
                   resolve_target e req = device_target e req.
Proof.
  assert (Hempty : parse_country_redirect s = ∅).
  { rewrite parse_country_redirect_fold. apply parse_no_equals_pieces.
    intros p Hp Hc. unfold split in Hp.
    apply in_map_iff in Hp as (q & <- & Hq).
    unfold has_char in Hc. rewrite chars_str in Hc.
    apply Hs. unfold has_char. eapply split_chars_pieces; eassumption. }
  split; [exact Hempty|].
  intros e req He. apply resolve_target_unmapped.
  intros d Hd. rewrite He in Hd. injection Hd as <-.
  rewrite Hempty. apply lookup_empty.
Qed.

(** X4: one pair [code=url] parses to the mapping from the stripped,
    uppercased code to the stripped URL; appended to a text after a [;]
    it adds that entry to the mapping of the text, replacing an entry
    with the same code. *)
Theorem parse_pair (code url : string)
    (Hcode : ~ has_char ";" code) (Hequals : ~ has_char "=" code)
    (Hurl : ~ has_char ";" url) :
  parse_country_redirect (code ++ "=" ++ url)
  = {[upper (strip code) := strip url]}
  /\ forall rest,
      parse_country_redirect (rest ++ ";" ++ code ++ "=" ++ url)
      = <[upper (strip code) := strip url]> (parse_country_redirect rest).
Proof.
  assert (Hpair : ~ has_char ";" (code ++ "=" ++ url)%string).
  { intros H. apply has_char_app in H as [H | H]; [exact (Hcode H)|].
    change ("=" ++ url)%string with (String "=" url) in H.
    destruct H as [H | H]; [discriminate | exact (Hurl H)]. }
  split.
  - rewrite parse_country_redirect_fold, (split_whole _ Hpair). simpl.
    unfold parse_step. rewrite (split_once_pair _ _ Hequals).
    apply insert_empty.
  - intros rest. rewrite (parse_append rest _ Hpair).
    unfold parse_step. rewrite (split_once_pair _ _ Hequals). reflexivity.
Qed.

(** X5: a piece without [=] appended to a [country_redirect] text is
    skipped: the mapping is the one of the text before it. *)
Theorem parse_skips_malformed (rest junk : string)
    (Hsemi : ~ has_char ";" junk) (Hequals : ~ has_char "=" junk) :
  parse_country_redirect (rest ++ ";" ++ junk) = parse_country_redirect rest.
Proof.
  rewrite (parse_append rest junk Hsemi). unfold parse_step.
  rewrite (split_once_none _ Hequals). reflexivity.
Qed.

(** X6: every key of a parsed mapping is in upper case, and its entry,
    when the URL is not empty, is the target of every request whose
    [X-Country] header is that key in any letter case. *)
Theorem parsed_keys_match (s k u : string)
    (Hk : parse_country_redirect s !! k = Some u) :
  upper k = k
  /\ (u <> "" ->
      forall e req h,
        country_redirect e = Some (parse_country_redirect s) ->
        upper h = k ->
        resolve_target e (with_country (Some h) req) = VStr u).
Proof.
  split.
  - rewrite parse_country_redirect_fold in Hk.
    apply (foldl_parse_keys (split ";" s) ∅).
    + intros k' [x Hx]. rewrite lookup_empty in Hx. discriminate.
    + eauto.
  - intros Hu e req h He Hh.
    eapply resolve_target_mapped; [exact He | exact Hh | exact Hk | exact Hu].
Qed.

(** ** Invariants of the store *)

Section StoreInvariants.

(** What [shorten] leaves in the store: nothing; or the new record and
    its QR file, with the answer [Created]; or the new record alone, when
    a step after the insert failed. *)
Lemma shorten_inv req draws qr st resp st' :
  shorten req draws qr st = Some (resp, st') ->
  (st' = st /\ forall sid, resp <> Created sid)
  \/ (exists e sid, resp = Created sid /\ short_id e = VStr sid
                    /\ find_one (VStr sid) st = None
                    /\ st' = save_qr sid (insert_one e st))
  \/ (exists e, (forall sid, resp <> Created sid)
                /\ find_one (short_id e) st = None
                /\ st' = insert_one e st).
Proof.
  intros H. destruct (shorten_cases _ _ _ _ _ _ H)
    as [[-> Hresp] | (sid0 & e & Ha & He & _ & Hend)].
  - left. split; [reflexivity|]. intros sid ->.
    destruct Hresp as [? | [? | [? | [? | (? & ? & _ & ?)]]]]; discriminate.
  - destruct (allocated_origin _ _ _ _ Ha) as [Hfresh _].
    destruct (entry_for_ok _ _ _ He) as (Hid & _).
    destruct Hend as [(sid & -> & _ & -> & ->) | [(sid & _ & _ & -> & ->)
                                                 | (_ & -> & ->)]].
    + right. left. exists e, sid. repeat split; assumption.
    + right. right. exists e. rewrite Hid.
      split; [discriminate|]. split; [exact Hfresh | reflexivity].
    + right. right. exists e. rewrite Hid.
      split; [discriminate|]. split; [exact Hfresh | reflexivity].
Qed.

Lemma find_none_ids sid l :
  find (has_id sid) l = None <-> ~ In sid (short_id <$> l).
Proof.
  induction l as [|x l IH]; simpl; [tauto|].
  unfold has_id at 1. destruct (bool_decide (short_id x = sid)) eqn:Hx.
  - apply bool_decide_eq_true in Hx. split; [discriminate | tauto].
  - apply bool_decide_eq_false in Hx. rewrite IH. tauto.
Qed.

Lemma find_some_ids sid l :
  is_Some (find (has_id sid) l) <-> In sid (short_id <$> l).
Proof.
  destruct (find (has_id sid) l) eqn:Hf.
  - split; [intros _ | eauto].
    destruct (in_dec pyval_eq_dec sid (short_id <$> l)) as [Hin | Hn];
      [exact Hin|].
    apply find_none_ids in Hn. congruence.
  - apply find_none_ids in Hf. split; [intros [? ?]; discriminate | tauto].
Qed.

Lemma update_first_ids sid f l :
  (forall e, short_id (f e) = short_id e) ->
  short_id <$> update_first sid f l = short_id <$> l.
Proof.
  intros Hf. induction l as [|x l IH]; simpl; [reflexivity|].
  destruct (has_id sid x); simpl; [rewrite Hf; reflexivity|].
  f_equal. exact IH.
Qed.

(** What an operation does to the identifiers and to the QR files:
    nothing; or a successful creation adds a free identifier and its
    file; or a creation that fails after the insert adds a free
    identifier and no file. *)
Lemma step_shape st o resp st' :
  step st o resp st' ->
  (short_id <$> urls st' = short_id <$> urls st
   /\ qrcodes st' = qrcodes st /\ forall sid, resp <> Created sid)
  \/ (exists sid, resp = Created sid
                  /\ ~ In (VStr sid) (short_id <$> urls st)
                  /\ short_id <$> urls st'
                     = ((short_id <$> urls st) ++ [VStr sid])%list
                  /\ qrcodes st' = {[sid]} ∪ qrcodes st)
  \/ (exists x, ~ In x (short_id <$> urls st)
                /\ short_id <$> urls st' = ((short_id <$> urls st) ++ [x])%list
                /\ qrcodes st' = qrcodes st).
Proof.
  intros [st0 o0 r st0' Hrun].
  destruct o0 as [req draws qr|sid req now|sid|sid|sid req]; simpl in Hrun.
  - destruct (shorten_inv _ _ _ _ _ _ Hrun)
      as [[-> Hno] | [(e & sid & -> & Hid & Hfresh & ->)
                     | (e & _ & Hfresh & ->)]].
    + left. repeat split. exact Hno.
    + right. left. exists sid. split; [reflexivity|]. split.
      * apply find_none_ids. exact Hfresh.
      * simpl. rewrite fmap_app. simpl. rewrite Hid. split; reflexivity.
    + right. right. exists (short_id e). split.
      * apply find_none_ids. exact Hfresh.
      * simpl. rewrite fmap_app. split; reflexivity.
  - left. injection Hrun as Hrun. unfold redirect_short_url in Hrun.
    destruct (find_one (VStr sid) st0);
      [|injection Hrun as <- <-; repeat split; discriminate].
    destruct (is_expired u now) as [[|]|];
      try (injection Hrun as <- <-; repeat split; discriminate).
    destruct (check_password u req); injection Hrun as <- <-;
      try (repeat split; discriminate).
    simpl. split; [apply update_first_ids; reflexivity|].
    split; [reflexivity | discriminate].
  - left. injection Hrun as Hrun. unfold get_qr in Hrun.
    destruct (bool_decide _); injection Hrun as <- <-; repeat split; discriminate.
  - left. injection Hrun as Hrun. unfold stats in Hrun.
    destruct (find_one _ _); injection Hrun as <- <-; repeat split; discriminate.
  - left. injection Hrun as Hrun. unfold update_url in Hrun.
    destruct (find_one _ _);
      [|injection Hrun as <- <-; repeat split; discriminate].
    destruct (is_json req); simpl in Hrun;
      [|injection Hrun as <- <-; repeat split; discriminate].
    destruct (collect_updates (json req)) as [f|x];
      [|injection Hrun as <- <-; repeat split; discriminate].
    destruct (no_updates f);
      [injection Hrun as <- <-; repeat split; discriminate|].
    destruct (encodable_updates f); simpl in Hrun; injection Hrun as <- <-;
      try (repeat split; discriminate).
    simpl. split; [apply update_first_ids; reflexivity|].
    split; [reflexivity | discriminate].
Qed.

Lemma step_unique st o resp st' :
  step st o resp st' -> unique_ids st -> unique_ids st'.
Proof.
  intros Hstep Hu. unfold unique_ids in *.
  destruct (step_shape _ _ _ _ Hstep)
    as [(-> & _) | [(sid & _ & Hfresh & -> & _) | (x & Hfresh & -> & _)]];
    [exact Hu | |].
  all: apply NoDup_app; split; [exact Hu|]; split; [|apply NoDup_singleton];
    intros y Hy Hs; apply list_elem_of_singleton in Hs; subst y;
    apply Hfresh; apply list_elem_of_In; exact Hy.
Qed.

(** No operation removes a QR file. *)
Lemma step_qrcodes_kept st o resp st' sid :
  step st o resp st' -> sid ∈ qrcodes st -> sid ∈ qrcodes st'.
Proof.
  intros Hstep Hin.
  destruct (step_shape _ _ _ _ Hstep)
    as [(_ & -> & _) | [(s & _ & _ & _ & ->) | (x & _ & _ & ->)]];
    [exact Hin | | exact Hin].
  apply elem_of_union. right. exact Hin.
Qed.

Lemma reaches_unique st ops st' :
  reaches st ops st' -> unique_ids st -> unique_ids st'.
Proof.
  induction 1 as [st | st o r st1 os st2 Hstep _ IH]; [tauto|].
  intros Hu. apply IH. eapply step_unique; eassumption.
Qed.

Lemma reaches_qrcodes_kept st ops st' sid :
  reaches st ops st' -> sid ∈ qrcodes st -> sid ∈ qrcodes st'.
Proof.
  induction 1 as [st | st o r st1 os st2 Hstep _ IH]; [tauto|].
  intros Hin. apply IH. eapply step_qrcodes_kept; eassumption.
Qed.

(** A record that is found stays found. *)
Lemma reaches_found st ops st' sid :
  reaches st ops st' -> is_Some (find_one sid st) -> is_Some (find_one sid st').
Proof.
  intros Hr. unfold find_one. rewrite !find_some_ids.
  intros Hin. apply list_elem_of_In, list_elem_of_fmap in Hin as (e & -> & He).
  apply list_elem_of_lookup in He as [i Hi].
  destruct (reaches_keeps _ _ _ Hr i e Hi) as (e' & Hi' & <- & _).
  apply list_elem_of_In, list_elem_of_fmap. exists e'. split; [reflexivity|].
  apply list_elem_of_lookup. eauto.
Qed.

End StoreInvariants.

Section Creation.


End Creation.

(** X7: identifiers stay unique.  Along any run of the service that
    starts in a store where no two records share a [short_id], no two
    records of the store reached share one: records that carry the same
    identifier are the same record. *)
Theorem unique_ids_kept (st : store) (ops : list op) (st' : store)
    (Hrun : reaches st ops st') (Hunique : unique_ids st) :
  unique_ids st'
  /\ forall i j e1 e2,
      urls st' !! i = Some e1 -> urls st' !! j = Some e2 ->
      short_id e1 = short_id e2 -> i = j.
Proof.
  assert (Hu : unique_ids st') by (eapply reaches_unique; eassumption).
  split; [exact Hu|].
  intros i j e1 e2 Hi Hj Hid.
  apply (NoDup_lookup (short_id <$> urls st') i j (short_id e1)).
  - exact Hu.
  - rewrite list_lookup_fmap, Hi. reflexivity.
  - rewrite list_lookup_fmap, Hj, Hid. reflexivity.
Qed.

(** X8: QR images are never taken away.  Along any run of the service,
    an image that [get_qr] serves is still served at the end; so the
    image of an identifier that a creation returned is served after
    whatever operations follow. *)
Theorem qr_images_are_kept (st : store) (ops : list op) (st' : store)
    (sid : string) (Hrun : reaches st ops st') :
  ((get_qr sid st).1 = QrImage sid -> (get_qr sid st').1 = QrImage sid)
  /\ (forall req draws qr st0,
        shorten req draws qr st0 = Some (Created sid, st) ->
        (get_qr sid st').1 = QrImage sid).
Proof.
  assert (Hkept : sid ∈ qrcodes st -> (get_qr sid st').1 = QrImage sid).
  { intros Hin. unfold get_qr.
    rewrite bool_decide_eq_true_2; [reflexivity|].
    eapply reaches_qrcodes_kept; eassumption. }
  split.
  - unfold get_qr at 1.
    destruct (bool_decide (sid ∈ qrcodes st)) eqn:Hb; [|discriminate].
    intros _. apply Hkept. apply bool_decide_eq_true in Hb. exact Hb.
  - intros req draws qr st0 Hcreated. apply Hkept.
    destruct (shorten_created _ _ _ _ _ _ Hcreated) as (e & _ & _ & -> & _).
    simpl. set_solver.
Qed.

(** X9: an identifier is never given out twice.  Once a creation has
    returned [sid], whatever operations follow, a creation that asks for
    [sid] as its custom identifier is answered "Custom ID already taken"
    and leaves the store as it was. *)
Theorem custom_id_conflict (req0 : request) (draws0 : list string)
    (qr0 : bool) (st : store) (sid : string) (st1 : store) (ops : list op)
    (st2 : store) (req : request) (draws : list string) (qr : bool)
    (Hcreated : shorten req0 draws0 qr0 st = Some (Created sid, st1))
    (Hrun : reaches st1 ops st2)
    (Hpost : method req <> "GET")
    (Hurl : truthy (field req "long_url") = true)
    (Hid : field req "custom_id" = VStr sid)
    (Hsid : sid <> "") :
  shorten req draws qr st2 = Some (IdTaken, st2)
  /\ status_code IdTaken = 400.
Proof.
  split; [|reflexivity].
  destruct (shorten_created _ _ _ _ _ _ Hcreated) as (e0 & _ & _ & _ & Hf & _).
  assert (Hfound : is_Some (find_one (VStr sid) st2)).
  { eapply reaches_found; [exact Hrun|]. rewrite Hf. eauto. }
  destruct Hfound as [e He].
  unfold shorten. apply String.eqb_neq in Hpost. rewrite Hpost, Hurl. simpl.
  unfold allocate. rewrite Hid, He.
  destruct sid; [congruence | reflexivity].
Qed.

(** X10: a creation that is refused before the insert writes nothing.
    When the answer is "Missing URL" or "Custom ID already taken", or
    when [max_clicks] is an ASCII string that [int] rejects, the store,
    QR files included, is the one before the request and no identifier
    is returned. *)
Theorem failed_creation_writes_nothing (req : request) (draws : list string)
    (qr : bool) (st : store) (resp : response) (st' : store)
    (Hrun : shorten req draws qr st = Some (resp, st'))
    (Hwhy : resp = MissingURL \/ resp = IdTaken
            \/ (truthy (field req "max_clicks") = true
                /\ ascii_val (field req "max_clicks") = true
                /\ raises (py_int (field req "max_clicks")))) :
  st' = st /\ forall sid, resp <> Created sid.
Proof.
  destruct (shorten_cases _ _ _ _ _ _ Hrun)
    as [[-> Hresp] | (sid0 & e & _ & He & _ & Hend)].
  - split; [reflexivity|]. intros sid ->.
    destruct Hresp as [? | [? | [? | [? | (? & ? & _ & ?)]]]]; discriminate.
  - exfalso. destruct Hwhy as [-> | [-> | (Ht & _ & [x Hx])]].
    + destruct Hend as [(? & _ & _ & ? & _) | [(? & _ & _ & ? & _) | (_ & ? & _)]];
        discriminate.
    + destruct Hend as [(? & _ & _ & ? & _) | [(? & _ & _ & ? & _) | (_ & ? & _)]];
        discriminate.
    + destruct (entry_for_ok _ _ _ He) as (_ & _ & _ & _ & _ & _ & _ & Hmc & _).
      rewrite Ht in Hmc. destruct Hmc as (z & Hz & _). congruence.
Qed.


(** ** Visits against a click cap *)

Section Quota.

Lemma find_one_inc sid st :
  find_one sid (update_one sid inc_clicks st) = inc_clicks <$> find_one sid st.
Proof. unfold find_one. simpl. apply find_update_first. reflexivity. Qed.

Lemma is_expired_no_date e now :
  expiry_date e = VNone ->
  is_expired e now =
  Ok (match max_clicks e with
      | Some mc => negb (mc =? 0) && (mc <=? clicks e)
      | None => false
      end).
Proof. intros He. apply is_expired_quota_only. left. rewrite He. reflexivity. Qed.

(** One visit of an open record with a cap [N > 0] and no expiry date. *)
Lemma visit_capped sid req now st e N m :
  find_one (VStr sid) st = Some (with_clicks m e) ->
  expiry_date e = VNone -> truthy (password e) = false ->
  max_clicks e = Some N -> 0 < N ->
  redirect_short_url sid req now st
  = if m <? N
    then (Redirect (resolve_target e req), update_one (VStr sid) inc_clicks st)
    else (Expired, st).
Proof.
  intros Hf He Hp Hm HN. unfold redirect_short_url. rewrite Hf.
  rewrite is_expired_no_date by exact He. simpl. rewrite Hm.
  assert ((N =? 0) = false) as -> by (apply Z.eqb_neq; lia). simpl.
  destruct (m <? N) eqn:Hlt.
  - apply Z.ltb_lt in Hlt.
    assert ((N <=? m) = false) as -> by (apply Z.leb_gt; lia).
    unfold check_password. simpl. rewrite Hp. reflexivity.
  - apply Z.ltb_ge in Hlt.
    assert ((N <=? m) = true) as -> by (apply Z.leb_le; lia).
    reflexivity.
Qed.

Lemma with_clicks_id e : with_clicks (clicks e) e = e.
Proof. destruct e. reflexivity. Qed.

Lemma visits_capped sid req now st e N :
  find_one (VStr sid) st = Some e ->
  expiry_date e = VNone -> truthy (password e) = false ->
  max_clicks e = Some N -> 0 < N ->
  forall k : nat,
    find_one (VStr sid) (visits k sid req now st)
    = Some (with_clicks (Z.max (clicks e) (Z.min (clicks e + Z.of_nat k) N)) e).
Proof.
  intros Hf He Hp Hm HN k. induction k as [|k IH].
  - unfold visits. simpl. rewrite Hf. f_equal.
    replace (Z.max (clicks e) (Z.min (clicks e + Z.of_nat 0) N))
      with (clicks e) by lia.
    symmetry. apply with_clicks_id.
  - unfold visits in *. simpl.
    rewrite (visit_capped _ _ _ _ _ _ _ IH He Hp Hm HN).
    destruct (_ <? N) eqn:Hlt; simpl.
    + apply Z.ltb_lt in Hlt. rewrite find_one_inc, IH. simpl.
      unfold with_clicks, inc_clicks. simpl. do 2 f_equal. lia.
    + apply Z.ltb_ge in Hlt. rewrite IH. do 2 f_equal. lia.
Qed.

End Quota.

(** X12: a click cap allows exactly the visits it has left.  For a
    stored record with no expiry date, no password and [max_clicks = N >
    0], after [k] visits the counter is [clicks + k] capped at [N] (and
    unchanged if it was above [N] already); the next visit is a redirect
    while [clicks + k < N] and the answer 403 "expired" from then on. *)
Theorem cap_allows_remaining_visits (sid : string) (req : request)
    (now : datetime) (st : store) (e : url_entry) (N : Z) (k : nat)
    (Hfound : find_one (VStr sid) st = Some e)
    (Hdate : expiry_date e = VNone)
    (Hopen : truthy (password e) = false)
    (Hcap : max_clicks e = Some N)
    (Hpos : 0 < N) :
  (clicks <$> find_one (VStr sid) (visits k sid req now st))
  = Some (Z.max (clicks e) (Z.min (clicks e + Z.of_nat k) N))
  /\ (redirect_short_url sid req now (visits k sid req now st)).1
     = if clicks e + Z.of_nat k <? N then Redirect (resolve_target e req)
       else Expired.
Proof.
  pose proof (visits_capped _ req now _ _ _ Hfound Hdate Hopen Hcap Hpos k) as Hk.
  split; [rewrite Hk; reflexivity|].
  rewrite (visit_capped _ _ _ _ _ _ _ Hk Hdate Hopen Hcap Hpos).
  destruct (clicks e + Z.of_nat k <? N) eqn:Hlt.
  - apply Z.ltb_lt in Hlt.
    assert ((Z.max (clicks e) (Z.min (clicks e + Z.of_nat k) N) <? N) = true) as ->
      by (apply Z.ltb_lt; lia).
    reflexivity.
  - apply Z.ltb_ge in Hlt.
    assert ((Z.max (clicks e) (Z.min (clicks e + Z.of_nat k) N) <? N) = false) as ->
      by (apply Z.ltb_ge; lia).
    reflexivity.
Qed.

(** X13: a cap of zero is no cap, and a negative cap closes the link.
    For a stored record with no expiry date: with [max_clicks = 0] no
    visit is answered "expired", whatever the counter; with [max_clicks <
    0] (and a counter that is not negative) every visit is answered 403
    "expired" and leaves the store as it was. *)
Theorem cap_zero_or_negative (sid : string) (req : request) (now : datetime)
    (st : store) (e : url_entry) (n : Z)
    (Hfound : find_one (VStr sid) st = Some e)
    (Hdate : expiry_date e = VNone)
    (Hcap : max_clicks e = Some n) :
  (n = 0 -> (redirect_short_url sid req now st).1 <> Expired)
  /\ (n < 0 -> 0 <= clicks e ->
      redirect_short_url sid req now st = (Expired, st)).
Proof.
  unfold redirect_short_url. rewrite Hfound.
  rewrite is_expired_no_date by exact Hdate. rewrite Hcap. split.
  - intros ->. simpl. destruct (check_password e req); discriminate.
  - intros Hn Hc.
    assert ((n =? 0) = false) as -> by (apply Z.eqb_neq; lia).
    assert ((n <=? clicks e) = true) as -> by (apply Z.leb_le; lia).
    reflexivity.
Qed.

(** ** Expiry over time *)

Section ExpiryOverTime.



End ExpiryOverTime.


(** ** What an update writes *)

Section UpdateWrites.

Lemma update_first_other sid f l i e :
  l !! i = Some e -> short_id e <> sid -> update_first sid f l !! i = Some e.
Proof.
  revert i. induction l as [|x l IH]; intros i Hi Hne; [discriminate|].
  simpl. destruct (has_id sid x) eqn:Hx.
  - destruct i; simpl in *; [|exact Hi].
    injection Hi as ->. unfold has_id in Hx.
    apply bool_decide_eq_true in Hx. contradiction.
  - destruct i; simpl in *; [exact Hi | apply IH; assumption].
Qed.

Lemma max_clicks_update_ok data r :
  max_clicks_update data = Ok r ->
  (forall v, data !! "max_clicks" = Some v ->
             if clears v then r = Some None
             else exists z, py_int v = Ok z /\ r = Some (Some z))
  /\ (data !! "max_clicks" = None -> r = None).
Proof.
  unfold max_clicks_update. destruct (data !! "max_clicks") as [v|].
  - intros H. split; [|discriminate]. intros w [= <-].
    destruct (clears v); [injection H as <-; reflexivity|].
    destruct (py_int v) as [z|]; simpl in H; [|discriminate].
    injection H as <-. eauto.
  - intros [= <-]. split; [discriminate | reflexivity].
Qed.

Lemma country_redirect_update_ok data r :
  country_redirect_update data = Ok r ->
  (forall v, data !! "country_redirect" = Some v ->
             if clears v then r = Some None
             else exists s, v = VStr s
                  /\ r = Some (Some (parse_country_redirect s)))
  /\ (data !! "country_redirect" = None -> r = None).
Proof.
  unfold country_redirect_update.
  destruct (data !! "country_redirect") as [v|].
  - intros H. split; [|discriminate]. intros w [= <-].
    destruct (clears v); [injection H as <-; reflexivity|].
    destruct v as [|x|z|s]; simpl in H; try discriminate.
    injection H as <-. eauto.
  - intros [= <-]. split; [discriminate | reflexivity].
Qed.

Lemma collect_updates_parsed data f :
  collect_updates data = Ok f ->
  max_clicks_update data = Ok (u_max_clicks f)
  /\ country_redirect_update data = Ok (u_country_redirect f).
Proof.
  unfold collect_updates.
  destruct (max_clicks_update data); simpl; [|discriminate].
  destruct (country_redirect_update data); simpl; [|discriminate].
  intros [= <-]. split; reflexivity.
Qed.

End UpdateWrites.

(** X15: an update writes the fields the payload holds and no other.
    After an update that is answered "URL updated successfully", each of
    the six fields of the record is: unchanged when the payload has no
    such key; [None] when the payload gives the empty string or null;
    otherwise the value given, through [int] for [max_clicks] and through
    the pair parser for [country_redirect], which replaces the whole
    mapping. *)
Theorem update_writes_present_fields (sid : string) (req : request)
    (st : store) (f : update_fields) (st' : store)
    (Hupdated : update_url sid req st = (Updated f, st')) :
  exists e e',
    find_one (VStr sid) st = Some e
    /\ find_one (VStr sid) st' = Some e'
    /\ password e' = match json req !! "password" with
                     | Some v => if clears v then VNone else v
                     | None => password e
                     end
    /\ expiry_date e' = match json req !! "expiry_date" with
                        | Some v => if clears v then VNone else v
                        | None => expiry_date e
                        end
    /\ mobile_url e' = match json req !! "mobile_url" with
                       | Some v => if clears v then VNone else v
                       | None => mobile_url e
                       end
    /\ desktop_url e' = match json req !! "desktop_url" with
                        | Some v => if clears v then VNone else v
                        | None => desktop_url e
                        end
    /\ (forall v, json req !! "max_clicks" = Some v ->
                  if clears v then max_clicks e' = None
                  else exists z, py_int v = Ok z /\ max_clicks e' = Some z)
    /\ (json req !! "max_clicks" = None -> max_clicks e' = max_clicks e)
    /\ (forall v, json req !! "country_redirect" = Some v ->
                  if clears v then country_redirect e' = None
                  else exists s, v = VStr s
                       /\ country_redirect e' = Some (parse_country_redirect s))
    /\ (json req !! "country_redirect" = None ->
        country_redirect e' = country_redirect e).
Proof.
  destruct (update_url_updated _ _ _ _ _ Hupdated) as (e & He & _ & Hc & _ & ->).
  exists e, (set_fields f e). split; [exact He|]. split.
  { unfold find_one in *. simpl. rewrite find_update_first by reflexivity.
    rewrite He. reflexivity. }
  destruct (collect_updates_plain _ _ Hc) as (Hpw & Hex & Hmo & Hde).
  destruct (collect_updates_parsed _ _ Hc) as (Hmc & Hcr).
  destruct (max_clicks_update_ok _ _ Hmc) as (Hmc1 & Hmc2).
  destruct (country_redirect_update_ok _ _ Hcr) as (Hcr1 & Hcr2).
  simpl. rewrite Hpw, Hex, Hmo, Hde. unfold plain_update.
  repeat match goal with |- _ /\ _ => split end.
  - destruct (json req !! "password"); reflexivity.
  - destruct (json req !! "expiry_date"); reflexivity.
  - destruct (json req !! "mobile_url"); reflexivity.
  - destruct (json req !! "desktop_url"); reflexivity.
  - intros v Hv. specialize (Hmc1 v Hv). destruct (clears v).
    + rewrite Hmc1. reflexivity.
    + destruct Hmc1 as (z & Hz & ->). eauto.
  - intros Hn. rewrite (Hmc2 Hn). reflexivity.
  - intros v Hv. specialize (Hcr1 v Hv). destruct (clears v).
    + rewrite Hcr1. reflexivity.
    + destruct Hcr1 as (x & -> & ->). eauto.
  - intros Hn. rewrite (Hcr2 Hn). reflexivity.
Qed.


(** X16: an update and a visit touch one record.  Every record whose
    identifier is not the one in the request path is, after an update or
    a visit, the record it was, at its place; and neither operation
    changes the QR files. *)
Theorem other_records_untouched (sid : string) (req : request)
    (now : datetime) (st : store) (i : nat) (e : url_entry)
    (Hi : urls st !! i = Some e)
    (Hother : short_id e <> VStr sid) :
  urls (update_url sid req st).2 !! i = Some e
  /\ urls (redirect_short_url sid req now st).2 !! i = Some e
  /\ qrcodes (update_url sid req st).2 = qrcodes st
  /\ qrcodes (redirect_short_url sid req now st).2 = qrcodes st.
Proof.
  assert (Hvisit : (redirect_short_url sid req now st).2 = st
                   \/ (redirect_short_url sid req now st).2
                      = update_one (VStr sid) inc_clicks st).
  { unfold redirect_short_url. destruct (find_one (VStr sid) st); [|left; reflexivity].
    destruct (is_expired u now) as [[|]|]; try (left; reflexivity).
    destruct (check_password u req); (left; reflexivity) || (right; reflexivity). }
  destruct (update_url_store sid req st) as [-> | (f & _ & _ & _ & _ & ->)];
    destruct Hvisit as [-> | ->]; simpl; repeat split;
    try exact Hi; apply update_first_other; assumption.
Qed.

(** X17: a password set or cleared by an update governs the next
    visit.  After an update answered "URL updated successfully" whose
    payload gives a non-empty string as [password], a visit of the record
    (while it is not expired) gets the password form unless it is a
    [POST], and a [POST] that submits that string in its form is
    redirected; when the payload gives the empty string or null, no visit
    is asked for a password or refused for one. *)
Theorem updated_password_governs (sid : string) (req : request) (st : store)
    (f : update_fields) (st' : store) (visit : request) (now : datetime)
    (Hupdated : update_url sid req st = (Updated f, st')) :
  (forall p, json req !! "password" = Some (VStr p) -> p <> "" ->
             forall e', find_one (VStr sid) st' = Some e' ->
                        is_expired e' now = Ok false ->
             (method visit <> "POST" ->
              (redirect_short_url sid visit now st').1 = PasswordForm)
             /\ (method visit = "POST" ->
                 form visit !! "password" = Some p ->
                 (redirect_short_url sid visit now st').1
                 = Redirect (resolve_target e' visit)))
  /\ (forall v, json req !! "password" = Some v -> clears v = true ->
                (redirect_short_url sid visit now st').1 <> PasswordForm
                /\ (redirect_short_url sid visit now st').1 <> IncorrectPassword).
Proof.
  destruct (update_url_updated _ _ _ _ _ Hupdated) as (e & He & _ & Hc & _ & ->).
  destruct (collect_updates_plain _ _ Hc) as (Hpw & _).
  assert (Hfound : find_one (VStr sid)
                     (update_one (VStr sid) (set_fields f) st)
                   = Some (set_fields f e)).
  { unfold find_one in *. simpl. rewrite find_update_first by reflexivity.
    rewrite He. reflexivity. }
  split.
  - intros p Hp Hne e' He' Hlive. rewrite Hfound in He'. injection He' as <-.
    assert (Hstored : password (set_fields f e) = VStr p).
    { simpl. rewrite Hpw. unfold plain_update. rewrite Hp.
      destruct p; [congruence | reflexivity]. }
    rewrite (redirect_by_gate _ _ _ _ _ Hfound Hlive).
    unfold check_password. rewrite Hstored.
    assert (truthy (VStr p) = true) as -> by (destruct p; [congruence | reflexivity]).
    split.
    + intros Hm. apply String.eqb_neq in Hm. rewrite Hm. reflexivity.
    + intros -> Hform. simpl. unfold input_pwd. rewrite Hform. simpl.
      assert (truthy (VStr p) = true) as Ht by (destruct p; [congruence | reflexivity]).
      unfold py_or. rewrite Ht. simpl. rewrite String.eqb_refl. reflexivity.
  - intros v Hv Hcl. unfold redirect_short_url. rewrite Hfound.
    destruct (is_expired (set_fields f e) now) as [[|]|]; simpl;
      try (split; discriminate).
    unfold check_password. simpl. rewrite Hpw. unfold plain_update.
    rewrite Hv, Hcl. simpl. split; discriminate.
Qed.

(** ** The properties above on concrete inputs *)

Section Witnesses.

Lemma geo_run_reaches : reaches empty_store geo_run geo_visited.
Proof.
  eapply reaches_cons; [apply (step_run _ _ (Created "geo") geo_store) |].
  { vm_compute. reflexivity. }
  eapply reaches_cons;
    [apply (step_run _ _ (Redirect (VStr "https://us.x.com")) geo_visited) |].
  { vm_compute. reflexivity. }
  apply reaches_nil.
Qed.

End Witnesses.

Local Ltac no_such_char :=
  let H := fresh "H" in
  intros H; vm_compute in H;
  repeat (destruct H as [H | H]; [discriminate H|]); exact H.

Lemma created_id_is_generated_witness :
  String.length "dkryFM" = 6%nat
  /\ (forall c, has_char c "dkryFM" -> is_alnum c = true)
  /\ find_one (VStr "dkryFM") geo_store = None.
Proof.
  apply (created_id_is_generated plain_create
           [generate_short_id 6 sample_rand] true geo_store "dkryFM"
           (store_after (Shorten plain_create [generate_short_id 6 sample_rand] true)
                        geo_store)).
  - intros d [<- | []]. exists sample_rand. reflexivity.
  - reflexivity.
  - vm_compute. reflexivity.
Defined.

Lemma parse_without_equals_witness :
  parse_country_redirect "US https://us.x.com;IN" = ∅.
Proof.
  apply (proj1 (parse_without_equals "US https://us.x.com;IN" ltac:(no_such_char))).
Defined.

Lemma parse_pair_witness :
  parse_country_redirect (" us " ++ "=" ++ " https://us.x.com ")
  = {[upper (strip " us ") := strip " https://us.x.com "]}.
Proof.
  apply (proj1 (parse_pair " us " " https://us.x.com "
                  ltac:(no_such_char) ltac:(no_such_char) ltac:(no_such_char))).
Defined.

Lemma parse_skips_malformed_witness :
  parse_country_redirect ("US=https://us.x.com" ++ ";" ++ "IN https://in.x.com")
  = parse_country_redirect "US=https://us.x.com".
Proof.
  apply (parse_skips_malformed "US=https://us.x.com" "IN https://in.x.com"
           ltac:(no_such_char) ltac:(no_such_char)).
Defined.

Lemma parsed_keys_match_witness :
  upper "IN" = "IN"
  /\ resolve_target geo_entry (with_country (Some "in") (get phone None))
     = VStr "https://in.x.com".
Proof.
  destruct (parsed_keys_match "US=https://us.x.com;IN=https://in.x.com"
              "IN" "https://in.x.com" ltac:(vm_compute; reflexivity))
    as [Hkey Hmatch].
  split; [exact Hkey|].
  apply Hmatch; [discriminate | vm_compute; reflexivity | reflexivity].
Defined.

Lemma unique_ids_kept_witness : unique_ids geo_visited.
Proof.
  apply (proj1 (unique_ids_kept empty_store geo_run geo_visited
                  geo_run_reaches (NoDup_nil_2 : unique_ids empty_store))).
Defined.

Lemma qr_images_are_kept_witness : (get_qr "geo" geo_visited).1 = QrImage "geo".
Proof.
  apply (proj2 (qr_images_are_kept geo_store
                  [Visit "geo" (get phone (Some "us")) now0] geo_visited "geo"
                  ltac:(eapply reaches_cons;
                        [apply (step_run _ _ (Redirect (VStr "https://us.x.com")));
                         vm_compute; reflexivity
                        | apply reaches_nil]))
           geo_create [] true empty_store).
  vm_compute. reflexivity.
Defined.

Lemma custom_id_conflict_witness :
  shorten geo_create [] true geo_visited = Some (IdTaken, geo_visited)
  /\ status_code IdTaken = 400.
Proof.
  apply (custom_id_conflict geo_create [] true empty_store "geo" geo_store
           [Visit "geo" (get phone (Some "us")) now0] geo_visited
           geo_create [] true).
  - vm_compute. reflexivity.
  - eapply reaches_cons; [|apply reaches_nil].
    apply (step_run _ _ (Redirect (VStr "https://us.x.com"))).
    vm_compute. reflexivity.
  - discriminate.
  - vm_compute. reflexivity.
  - vm_compute. reflexivity.
  - discriminate.
Defined.

Lemma failed_creation_writes_nothing_witness :
  store_after (Shorten bad_cap_create [] true) geo_store = geo_store
  /\ forall sid, InternalServerError ValueError <> Created sid.
Proof.
  apply (failed_creation_writes_nothing bad_cap_create [] true geo_store
           (InternalServerError ValueError)
           (store_after (Shorten bad_cap_create [] true) geo_store)).
  - vm_compute. reflexivity.
  - right. right. split; [vm_compute; reflexivity|].
    split; [vm_compute; reflexivity|]. exists ValueError. vm_compute. reflexivity.
Defined.


Lemma cap_allows_remaining_visits_witness :
  (clicks <$> find_one (VStr "two")
                (visits 3 "two" (get desktop None) now0 (capped_store 0)))
  = Some (Z.max (clicks capped_record)
                (Z.min (clicks capped_record + Z.of_nat 3) 2))
  /\ (redirect_short_url "two" (get desktop None) now0
        (visits 3 "two" (get desktop None) now0 (capped_store 0))).1
     = if clicks capped_record + Z.of_nat 3 <? 2
       then Redirect (resolve_target capped_record (get desktop None))
       else Expired.
Proof.
  apply (cap_allows_remaining_visits "two" (get desktop None) now0
           (capped_store 0) capped_record 2 3).
  - vm_compute. reflexivity.
  - reflexivity.
  - reflexivity.
  - reflexivity.
  - lia.
Defined.

Lemma cap_zero_or_negative_witness :
  redirect_short_url "shut" (get desktop None) now0 closed_store
  = (Expired, closed_store).
Proof.
  apply (proj2 (cap_zero_or_negative "shut" (get desktop None) now0
                  closed_store closed_record (-1) eq_refl eq_refl eq_refl));
    simpl; lia.
Defined.


Lemma update_writes_present_fields_witness :
  exists e e',
    find_one (VStr "vault") locked_store = Some e
    /\ find_one (VStr "vault") (update_url "vault" unlock_and_cap locked_store).2
       = Some e'
    /\ password e' = VNone
    /\ max_clicks e' = Some 5
    /\ country_redirect e' = country_redirect e.
Proof.
  destruct (update_writes_present_fields "vault" unlock_and_cap locked_store
              unlock_and_cap_fields
              (update_url "vault" unlock_and_cap locked_store).2)
    as (e & e' & He & He' & Hpw & _ & _ & _ & Hmc & _ & _ & Hcr).
  { vm_compute. reflexivity. }
  exists e, e'. split; [exact He|]. split; [exact He'|]. split; [|split].
  - rewrite Hpw. vm_compute. reflexivity.
  - destruct (Hmc (VStr "5")) as (z & Hz & Hmax).
    + vm_compute. reflexivity.
    + rewrite Hmax. vm_compute in Hz. injection Hz as <-. reflexivity.
  - apply Hcr. vm_compute. reflexivity.
Defined.

Lemma other_records_untouched_witness :
  urls (update_url "vault" unlock_and_cap two_records).2 !! 1%nat
  = Some geo_entry
  /\ urls (redirect_short_url "vault" (post_form {["password" := "secret"]})
             now0 two_records).2 !! 1%nat
     = Some geo_entry.
Proof.
  split.
  - apply (other_records_untouched "vault" unlock_and_cap now0 two_records 1
             geo_entry eq_refl).
    discriminate.
  - apply (other_records_untouched "vault"
             (post_form {["password" := "secret"]}) now0 two_records 1
             geo_entry eq_refl).
    discriminate.
Defined.

Lemma updated_password_governs_witness :
  (redirect_short_url "vault" (get desktop None) now0
     (update_url "vault" unlock_and_cap locked_store).2).1 <> PasswordForm
  /\ (redirect_short_url "vault" (get desktop None) now0
        (update_url "vault" unlock_and_cap locked_store).2).1
     <> IncorrectPassword.
Proof.
  apply (proj2 (updated_password_governs "vault" unlock_and_cap locked_store
                  unlock_and_cap_fields
                  (update_url "vault" unlock_and_cap locked_store).2
                  (get desktop None) now0 ltac:(vm_compute; reflexivity))
           (VStr "")); vm_compute; reflexivity.
Defined.
